(** * GeometricCardFHE: record lifecycle and decryption-correlation protocol

    A shallow embedding of [contracts/GeometricCardFHE.sol] and the
    properties of its state machine: submission of encrypted geometries,
    decryption requests, the two oracle callbacks and the per-category
    encrypted counters. *)

From Stdlib Require Import NArith List Lia.
From Stdlib Require Import Strings.String Strings.Byte.
From stdpp Require Import base gmap strings list fin_maps.

Local Open Scope N_scope.

(** ** Solidity value types *)

(** [uint256], [bytes32] and [bytes4] are unsigned machine words; the contract
    only ever adds one to a [uint256], under Solidity 0.8 checked arithmetic. *)
Abbreviation uint256 := N (only parsing).
Abbreviation bytes32 := N (only parsing).
Abbreviation bytes4 := N (only parsing).
Abbreviation bytes := (list byte) (only parsing).

Definition MAX_UINT256 : N := 2 ^ 256 - 1.
Definition MAX_UINT64 : N := 2 ^ 64 - 1.
Definition MOD_UINT32 : N := 2 ^ 32.

(** ** Keccak-256, as computed by the [keccak256] builtin *)

Module Keccak.

Definition lane_mask : N := 2 ^ 64 - 1.

Definition rotl (w n : N) : N :=
  N.land (N.lor (N.shiftl w n) (N.shiftr w (64 - n))) lane_mask.

Definition rho_offsets : list N :=
  [ 0;  1; 62; 28; 27;
   36; 44;  6; 55; 20;
    3; 10; 43; 25; 39;
   41; 45; 15; 21;  8;
   18;  2; 61; 56; 14].

Definition round_constants : list N :=
  [0x0000000000000001; 0x0000000000008082; 0x800000000000808A;
   0x8000000080008000; 0x000000000000808B; 0x0000000080000001;
   0x8000000080008081; 0x8000000000008009; 0x000000000000008A;
   0x0000000000000088; 0x0000000080008009; 0x000000008000000A;
   0x000000008000808B; 0x800000000000008B; 0x8000000000008089;
   0x8000000000008003; 0x8000000000008002; 0x8000000000000080;
   0x000000000000800A; 0x800000008000000A; 0x8000000080008081;
   0x8000000000008080; 0x0000000080000001; 0x8000000080008008].

(** The state is 25 lanes of 64 bits, lane (x, y) at index x + 5y. *)
Definition lane (A : list N) (x y : nat) : N :=
  nth (x mod 5 + 5 * (y mod 5))%nat A 0.

Definition tabulate (f : nat -> nat -> N) : list N :=
  map (fun i => f (i mod 5) (i / 5))%nat (seq 0 25).

Definition theta (A : list N) : list N :=
  let C x := fold_right N.lxor 0 (map (lane A x) (seq 0 5)) in
  let D x := N.lxor (C (x + 4)%nat) (rotl (C (x + 1)%nat) 1) in
  tabulate (fun x y => N.lxor (lane A x y) (D x)).

(** B[y, 2x+3y] = rotl(A[x, y], r[x, y]), read from the target side. *)
Definition rho_pi (A : list N) : list N :=
  tabulate (fun X Y =>
    let x := ((X + 3 * Y) mod 5)%nat in
    let y := X in
    rotl (lane A x y) (nth (x + 5 * y)%nat rho_offsets 0)).

Definition chi (B : list N) : list N :=
  tabulate (fun x y =>
    N.lxor (lane B x y)
           (N.land (N.lxor (lane B (x + 1) y) lane_mask) (lane B (x + 2) y))).

Definition iota (rc : N) (A : list N) : list N :=
  match A with
  | a :: rest => N.lxor a rc :: rest
  | [] => []
  end.

Definition round (A : list N) (rc : N) : list N :=
  iota rc (chi (rho_pi (theta A))).

Definition keccak_f (A : list N) : list N := fold_left round round_constants A.

Definition rate : nat := 136.

Definition pad (len : nat) : list N :=
  let q := (rate - len mod rate)%nat in
  if (q =? 1)%nat then [0x81]
  else 0x01 :: repeat 0 (q - 2) ++ [0x80].

Definition le_word (bs : list N) : N :=
  fold_right (fun b acc => b + 256 * acc) 0 bs.

Fixpoint lanes_of (n : nat) (bs : list N) : list N :=
  match n with
  | O => []
  | S n' => le_word (firstn 8 bs) :: lanes_of n' (skipn 8 bs)
  end.

Fixpoint xor_lanes (A blk : list N) : list N :=
  match A, blk with
  | a :: A', b :: blk' => N.lxor a b :: xor_lanes A' blk'
  | _, [] => A
  | [], _ => []
  end.

Fixpoint absorb (fuel : nat) (A : list N) (bs : list N) : list N :=
  match fuel, bs with
  | S fuel', _ :: _ =>
      absorb fuel' (keccak_f (xor_lanes A (lanes_of 17 (firstn rate bs))))
             (skipn rate bs)
  | _, _ => A
  end.

Definition le_bytes (w : N) : list N :=
  map (fun i => N.land (N.shiftr w (8 * N.of_nat i)) 0xff) (seq 0 8).

Definition digest (msg : list N) : list N :=
  let padded := msg ++ pad (length msg) in
  let A := absorb (length padded) (repeat 0 25) padded in
  flat_map le_bytes (firstn 4 A).

Definition be_word (bs : list N) : N :=
  fold_left (fun acc b => acc * 256 + b) bs 0.

End Keccak.

(** [keccak256(b)] read as a [uint256], which is what [bytes32ToUint] makes
    of it. *)
Definition keccak256 (b : bytes) : bytes32 :=
  Keccak.be_word (Keccak.digest (map Byte.to_N b)).

(** ** ABI coding of the two callback payloads *)

Module Abi.

Definition word_at (data : bytes) (pos : N) : option N :=
  if pos + 32 <=? N.of_nat (length data)
  then Some (Keccak.be_word (map Byte.to_N (firstn 32 (skipn (N.to_nat pos) data))))
  else None.

Definition slice (data : bytes) (pos len : N) : option bytes :=
  if pos + len <=? N.of_nat (length data)
  then Some (firstn (N.to_nat len) (skipn (N.to_nat pos) data))
  else None.

Definition decode_string (data : bytes) (pos : N) : option string :=
  len ← word_at data pos;
  if MAX_UINT64 <? len then None
  else string_of_list_byte <$> slice data (pos + 32) len.

Fixpoint decode_elements (data : bytes) (base i : N) (n : nat)
  : option (list string) :=
  match n with
  | O => Some []
  | S n' =>
      off ← word_at data (base + 32 * i);
      if MAX_UINT64 <? off then None
      else
        s ← decode_string data (base + off);
        rest ← decode_elements data base (i + 1) n';
        Some (s :: rest)
  end.

(** [abi.decode(data, (string[]))]: a head word with the offset of the
    array, its length, one offset per element and the elements, each a
    length word followed by the bytes. [None] is the decoder aborting the
    call: by a revert without data, or by Panic(0x41) where a length word
    is more than it can allocate memory for. Which of the two depends on
    the memory in use at that point, and both end the transaction in the
    same way; the model does not tell them apart. *)
Definition decode_string_array (data : bytes) : option (list string) :=
  off ← word_at data 0;
  if MAX_UINT64 <? off then None
  else
    n ← word_at data off;
    if MAX_UINT64 <? n then None
    else
      let base := off + 32 in
      if base + 32 * n <=? N.of_nat (length data)
      then decode_elements data base 0 (N.to_nat n)
      else None.

(** [abi.decode(data, (uint32))]: one word whose upper 224 bits are zero. *)
Definition decode_uint32 (data : bytes) : option N :=
  w ← word_at data 0;
  if w <? MOD_UINT32 then Some w else None.

Definition byte_of (n : N) : byte := default x00 (Byte.of_N n).

Definition be_bytes32 (w : N) : bytes :=
  map (fun i => byte_of (N.land (N.shiftr w (8 * (31 - N.of_nat i))) 0xff))
      (seq 0 32).

Definition pad32 (b : bytes) : bytes :=
  b ++ repeat x00 ((32 - length b mod 32) mod 32)%nat.

Definition encode_string (s : string) : bytes :=
  let b := list_byte_of_string s in
  be_bytes32 (N.of_nat (length b)) ++ pad32 b.

Fixpoint offsets (start : nat) (bodies : list bytes) : list N :=
  match bodies with
  | [] => []
  | b :: rest => N.of_nat start :: offsets (start + length b) rest
  end.

(** [abi.encode(xs)] for [xs : string[]]. *)
Definition encode_string_array (xs : list string) : bytes :=
  let bodies := map encode_string xs in
  be_bytes32 32 ++ be_bytes32 (N.of_nat (length xs))
    ++ concat (map be_bytes32 (offsets (32 * length xs) bodies))
    ++ concat bodies.

(** [abi.encode(v)] for [v : uint32]. *)
Definition encode_uint32 (v : N) : bytes := be_bytes32 (v mod MOD_UINT32).

End Abi.

(** ** The imported FHE library

    [@fhevm/solidity/lib/FHE.sol] is not part of the contract: the operations
    the contract calls are taken as a parameter, with the shapes the calls
    have in the source. [euint32] is the library's handle type, a [bytes32]
    whose zero value is what an unwritten mapping slot holds.

    A call into the library has two parts. What it computes is a function of
    its arguments: the handle of a sum, the id of a request. Whether it
    returns at all is decided by the access-control list the library
    consults: [FHE.add] reverts unless the contract is allowed on both of
    its operands, [FHE.requestDecryption] reverts unless the contract is
    allowed on every handle it asks for. What the list allows is storage
    outside the contract, changed by other transactions and by the library
    during a call; a transaction reads it from its context ([isAllowed] of
    [Ctx] below). The events and the bookkeeping the library keeps for
    itself (the [DecryptionFulfilled] event of [checkSignatures], the
    handles saved with a request) are not part of the model. *)

Abbreviation euint32 := N (only parsing).

(** What the contract sends to the decryption oracle: the request id the
    library handed back, the ciphertext handles and the callback selector. *)
Record OracleRequest := {
  or_requestId : uint256;
  or_handles : list bytes32;
  or_selector : bytes4
}.

Class FHEVM := {
  FHE_asEuint32 : N -> euint32;
  (** the handle of the sum, when the call is allowed *)
  FHE_add : euint32 -> euint32 -> euint32;
  FHE_isInitialized : euint32 -> bool;
  FHE_toBytes32 : euint32 -> bytes32;
  (** the request id chosen for a request that is allowed, given the
      requests sent so far *)
  FHE_requestDecryption : list bytes32 -> bytes4 -> list OracleRequest -> uint256;
  (** [true] when [checkSignatures] returns, [false] when it reverts *)
  FHE_checkSignatures : uint256 -> bytes -> bytes -> bool;
  (** the cleartext a handle stands for; nothing in the contract reads it *)
  FHE_cleartext : euint32 -> N
}.

(** What the contract relies on from the engine: the zero handle is not an
    initialized ciphertext, the handles the engine produces are, and [add]
    adds 32-bit cleartexts, wrapping around as [euint32] arithmetic does. *)
Class FHEVMLaws (F : FHEVM) : Prop := {
  isInitialized_zero_handle : FHE_isInitialized 0 = false;
  isInitialized_asEuint32 : forall v, FHE_isInitialized (FHE_asEuint32 v) = true;
  isInitialized_add : forall a b, FHE_isInitialized (FHE_add a b) = true;
  cleartext_asEuint32 : forall v, FHE_cleartext (FHE_asEuint32 v) = v mod MOD_UINT32;
  cleartext_add : forall a b,
    FHE_cleartext (FHE_add a b) = (FHE_cleartext a + FHE_cleartext b) mod MOD_UINT32
}.

(** ** Storage *)

Record EncryptedGeometry := {
  id : uint256;
  encryptedShape2D : euint32;
  encryptedShape3D : euint32;
  timestamp : uint256
}.

Record DecryptedGeometry := {
  shape2D : string;
  shape3D : string;
  isDecrypted : bool
}.

Inductive Event :=
| GeometrySubmitted (id timestamp : uint256)
| DecryptionRequested (id : uint256)
| GeometryDecrypted (id : uint256).

(** A Solidity mapping is total: a key never written reads as the zero value
    of the value type. Keys are compared as values, strings byte by byte
    (two keys never share a storage slot). *)
Class SolDefault (V : Type) := sol_default : V.

#[global] Instance uint_default : SolDefault N := 0.
#[global] Instance EncryptedGeometry_default : SolDefault EncryptedGeometry :=
  {| id := 0; encryptedShape2D := 0; encryptedShape3D := 0; timestamp := 0 |}.
#[global] Instance DecryptedGeometry_default : SolDefault DecryptedGeometry :=
  {| shape2D := ""; shape3D := ""; isDecrypted := false |}.

Definition mget `{Countable K} `{SolDefault V} (m : gmap K V) (k : K) : V :=
  default sol_default (m !! k).

Notation "m .[ k ]" := (mget m k) (at level 1, left associativity, format "m .[ k ]").

(** The contract's storage, followed by what its own code has emitted (the
    three events it declares; the events of the library are not recorded)
    and what it has sent to the oracle (both newest first). *)
Record State := {
  geometryCount : uint256;
  encryptedGeometries : gmap N EncryptedGeometry;
  decryptedGeometries : gmap N DecryptedGeometry;
  encryptedIntersectionCount : gmap string N;
  intersectionCategories : list string;
  requestToGeometryId : gmap N N;
  events : list Event;
  oracleRequests : list OracleRequest
}.

Definition initial : State := {|
  geometryCount := 0;
  encryptedGeometries := ∅;
  decryptedGeometries := ∅;
  encryptedIntersectionCount := ∅;
  intersectionCategories := [];
  requestToGeometryId := ∅;
  events := [];
  oracleRequests := []
|}.

Definition set_geometryCount (v : uint256) (s : State) : State :=
  {| geometryCount := v;
     encryptedGeometries := encryptedGeometries s;
     decryptedGeometries := decryptedGeometries s;
     encryptedIntersectionCount := encryptedIntersectionCount s;
     intersectionCategories := intersectionCategories s;
     requestToGeometryId := requestToGeometryId s;
     events := events s;
     oracleRequests := oracleRequests s |}.

Definition set_encryptedGeometries (v : gmap N EncryptedGeometry) (s : State) : State :=
  {| geometryCount := geometryCount s;
     encryptedGeometries := v;
     decryptedGeometries := decryptedGeometries s;
     encryptedIntersectionCount := encryptedIntersectionCount s;
     intersectionCategories := intersectionCategories s;
     requestToGeometryId := requestToGeometryId s;
     events := events s;
     oracleRequests := oracleRequests s |}.

Definition set_decryptedGeometries (v : gmap N DecryptedGeometry) (s : State) : State :=
  {| geometryCount := geometryCount s;
     encryptedGeometries := encryptedGeometries s;
     decryptedGeometries := v;
     encryptedIntersectionCount := encryptedIntersectionCount s;
     intersectionCategories := intersectionCategories s;
     requestToGeometryId := requestToGeometryId s;
     events := events s;
     oracleRequests := oracleRequests s |}.

Definition set_encryptedIntersectionCount (v : gmap string N) (s : State) : State :=
  {| geometryCount := geometryCount s;
     encryptedGeometries := encryptedGeometries s;
     decryptedGeometries := decryptedGeometries s;
     encryptedIntersectionCount := v;
     intersectionCategories := intersectionCategories s;
     requestToGeometryId := requestToGeometryId s;
     events := events s;
     oracleRequests := oracleRequests s |}.

Definition set_intersectionCategories (v : list string) (s : State) : State :=
  {| geometryCount := geometryCount s;
     encryptedGeometries := encryptedGeometries s;
     decryptedGeometries := decryptedGeometries s;
     encryptedIntersectionCount := encryptedIntersectionCount s;
     intersectionCategories := v;
     requestToGeometryId := requestToGeometryId s;
     events := events s;
     oracleRequests := oracleRequests s |}.

Definition set_requestToGeometryId (v : gmap N N) (s : State) : State :=
  {| geometryCount := geometryCount s;
     encryptedGeometries := encryptedGeometries s;
     decryptedGeometries := decryptedGeometries s;
     encryptedIntersectionCount := encryptedIntersectionCount s;
     intersectionCategories := intersectionCategories s;
     requestToGeometryId := v;
     events := events s;
     oracleRequests := oracleRequests s |}.

Definition set_events (v : list Event) (s : State) : State :=
  {| geometryCount := geometryCount s;
     encryptedGeometries := encryptedGeometries s;
     decryptedGeometries := decryptedGeometries s;
     encryptedIntersectionCount := encryptedIntersectionCount s;
     intersectionCategories := intersectionCategories s;
     requestToGeometryId := requestToGeometryId s;
     events := v;
     oracleRequests := oracleRequests s |}.

Definition set_oracleRequests (v : list OracleRequest) (s : State) : State :=
  {| geometryCount := geometryCount s;
     encryptedGeometries := encryptedGeometries s;
     decryptedGeometries := decryptedGeometries s;
     encryptedIntersectionCount := encryptedIntersectionCount s;
     intersectionCategories := intersectionCategories s;
     requestToGeometryId := requestToGeometryId s;
     events := events s;
     oracleRequests := v |}.

(** ** Execution monad

    A function body threads the storage and may revert. The storage at the
    point of the revert is kept, so that the order of checks and writes in a
    body can be observed; [transact] below is what discards it. *)

Inductive Error :=
| AlreadyDecrypted          (* require(..., "Already decrypted") *)
| InvalidRequest            (* require(..., "Invalid request") *)
| CategoryNotFound          (* "Category not found" *)
| ProofVerificationFailed   (* FHE.checkSignatures reverted *)
| ACLNotAllowed             (* FHE.add: the contract is not allowed on an operand *)
| SenderNotAllowed          (* FHE.requestDecryption: not allowed on a handle *)
| AbiDecodeFailed           (* abi.decode aborted the call: a revert without data,
                               or Panic(0x41) where a length word is too large
                               for the decoder to allocate; which of the two
                               depends on the memory layout, which is not
                               modelled *)
| Panic (code : N).         (* 0x11 arithmetic overflow, 0x32 index out of bounds *)

Definition M (A : Type) : Type := State -> (Error + A) * State.

#[global] Instance M_ret : MRet M := fun A a s => (inr a, s).
#[global] Instance M_bind : MBind M := fun A B f m s =>
  match m s with
  | (inl e, s') => (inl e, s')
  | (inr a, s') => f a s'
  end.

Definition revert {A} (e : Error) : M A := fun s => (inl e, s).
Definition require (b : bool) (e : Error) : M unit :=
  if b then mret tt else revert e.
Definition gets {A} (f : State -> A) : M A := fun s => (inr (f s), s).
Definition modify (f : State -> State) : M unit := fun s => (inr tt, f s).
Definition emit (e : Event) : M unit := modify (fun s => set_events (e :: events s) s).
Definition from_option {A} (o : option A) (e : Error) : M A :=
  match o with Some a => mret a | None => revert e end.

(** [a + b] on [uint256], reverting with Panic(0x11) on overflow. *)
Definition checked_add (a b : uint256) : M uint256 :=
  if a + b <=? MAX_UINT256 then mret (a + b) else revert (Panic 0x11).

(** [xs[i]] on a memory array, reverting with Panic(0x32) out of bounds. *)
Definition index {A} (xs : list A) (i : nat) : M A :=
  from_option (xs !! i) (Panic 0x32).

(** The transaction context: what a function can read of the transaction,
    and what the access-control list answers while it runs, when the library
    asks whether the contract is allowed on a handle. *)
Record Ctx := {
  msg_sender : N;
  block_timestamp : uint256;
  isAllowed : bytes32 -> bool
}.

(** ** The contract *)

(** [this.f.selector]: the first four bytes of the hash of the signature. *)
Definition selector (signature : string) : bytes4 :=
  keccak256 (list_byte_of_string signature) / 2 ^ 224.

Definition decryptGeometry_selector : bytes4 :=
  Eval vm_compute in selector "decryptGeometry(uint256,bytes,bytes)".
Definition decryptIntersectionCount_selector : bytes4 :=
  Eval vm_compute in selector "decryptIntersectionCount(uint256,bytes,bytes)".

Definition bytes32ToUint (b : bytes32) : uint256 := b.

(** [abi.encodePacked(s)] of a single string is its bytes. *)
Definition encodePacked (s : string) : bytes := list_byte_of_string s.

Definition categoryHash (category : string) : uint256 :=
  bytes32ToUint (keccak256 (encodePacked category)).

Section Contract.
Context {F : FHEVM}.

(** [modifier onlyParticipant(uint256 geometryId) { _; }] *)
Definition onlyParticipant {A} (ctx : Ctx) (geometryId : uint256) (body : M A) : M A :=
  body.

(** [FHE.requestDecryption]: the handles are released for decryption, which
    the access-control list refuses for a handle the contract is not allowed
    on; then the library picks the request id and the request goes out to
    the oracle. *)
Definition requestDecryption (ctx : Ctx)
    (ciphertexts : list bytes32) (callback : bytes4) : M uint256 :=
  require (forallb (isAllowed ctx) ciphertexts) SenderNotAllowed;;
  sent ← gets oracleRequests;
  let reqId := FHE_requestDecryption ciphertexts callback sent in
  modify (set_oracleRequests
            ({| or_requestId := reqId; or_handles := ciphertexts;
                or_selector := callback |} :: sent));;
  mret reqId.

(** [FHE.add]: the engine refuses an operand the contract is not allowed
    on. *)
Definition add (ctx : Ctx) (a b : euint32) : M euint32 :=
  require (isAllowed ctx (FHE_toBytes32 a) && isAllowed ctx (FHE_toBytes32 b))
    ACLNotAllowed;;
  mret (FHE_add a b).

Definition submitEncryptedGeometry (ctx : Ctx)
    (encryptedShape2D encryptedShape3D : euint32) : M unit :=
  count ← gets geometryCount;
  count' ← checked_add count 1;
  modify (set_geometryCount count');;
  newId ← gets geometryCount;
  modify (fun s => set_encryptedGeometries
    (<[newId := {| id := newId;
                   encryptedShape2D := encryptedShape2D;
                   encryptedShape3D := encryptedShape3D;
                   timestamp := block_timestamp ctx |}]> (encryptedGeometries s)) s);;
  modify (fun s => set_decryptedGeometries
    (<[newId := {| shape2D := ""; shape3D := ""; isDecrypted := false |}]>
       (decryptedGeometries s)) s);;
  emit (GeometrySubmitted newId (block_timestamp ctx)).

Definition requestGeometryDecryption (ctx : Ctx) (geometryId : uint256) : M unit :=
  onlyParticipant ctx geometryId (
    geo ← gets (fun s => (encryptedGeometries s).[geometryId]);
    dGeo ← gets (fun s => (decryptedGeometries s).[geometryId]);
    require (negb (isDecrypted dGeo)) AlreadyDecrypted;;
    let ciphertexts := [FHE_toBytes32 (encryptedShape2D geo);
                        FHE_toBytes32 (encryptedShape3D geo)] in
    reqId ← requestDecryption ctx ciphertexts decryptGeometry_selector;
    modify (fun s => set_requestToGeometryId
      (<[reqId := geometryId]> (requestToGeometryId s)) s);;
    emit (DecryptionRequested geometryId)).

(** The three writes through the storage reference [dGeo]. *)
Definition write_shape2D (geometryId : uint256) (v : string) : M unit :=
  modify (fun s =>
    let d := (decryptedGeometries s).[geometryId] in
    set_decryptedGeometries
      (<[geometryId := {| shape2D := v; shape3D := shape3D d;
                          isDecrypted := isDecrypted d |}]> (decryptedGeometries s)) s).

Definition write_shape3D (geometryId : uint256) (v : string) : M unit :=
  modify (fun s =>
    let d := (decryptedGeometries s).[geometryId] in
    set_decryptedGeometries
      (<[geometryId := {| shape2D := shape2D d; shape3D := v;
                          isDecrypted := isDecrypted d |}]> (decryptedGeometries s)) s).

Definition write_isDecrypted (geometryId : uint256) (v : bool) : M unit :=
  modify (fun s =>
    let d := (decryptedGeometries s).[geometryId] in
    set_decryptedGeometries
      (<[geometryId := {| shape2D := shape2D d; shape3D := shape3D d;
                          isDecrypted := v |}]> (decryptedGeometries s)) s).

Definition write_count (category : string) (v : euint32) : M unit :=
  modify (fun s => set_encryptedIntersectionCount
    (<[category := v]> (encryptedIntersectionCount s)) s).

Definition decryptGeometry (ctx : Ctx) (requestId : uint256)
    (cleartexts proof : bytes) : M unit :=
  geometryId ← gets (fun s => (requestToGeometryId s).[requestId]);
  require (negb (geometryId =? 0)) InvalidRequest;;
  dGeo ← gets (fun s => (decryptedGeometries s).[geometryId]);
  require (negb (isDecrypted dGeo)) AlreadyDecrypted;;
  require (FHE_checkSignatures requestId cleartexts proof) ProofVerificationFailed;;
  results ← from_option (Abi.decode_string_array cleartexts) AbiDecodeFailed;
  r0 ← index results 0;
  write_shape2D geometryId r0;;
  r1 ← index results 1;
  write_shape3D geometryId r1;;
  write_isDecrypted geometryId true;;
  count ← gets (fun s => (encryptedIntersectionCount s).[r1]);
  (if negb (FHE_isInitialized count)
   then
     write_count r1 (FHE_asEuint32 0);;
     modify (fun s => set_intersectionCategories (intersectionCategories s ++ [r1]) s)
   else mret tt);;
  count ← gets (fun s => (encryptedIntersectionCount s).[r1]);
  sum ← add ctx count (FHE_asEuint32 1);
  write_count r1 sum;;
  emit (GeometryDecrypted geometryId).

Definition getDecryptedGeometry (ctx : Ctx) (geometryId : uint256)
  : M (string * string * bool) :=
  geo ← gets (fun s => (decryptedGeometries s).[geometryId]);
  mret (shape2D geo, shape3D geo, isDecrypted geo).

Definition getEncryptedIntersectionCount (ctx : Ctx) (category : string) : M euint32 :=
  gets (fun s => (encryptedIntersectionCount s).[category]).

Definition requestIntersectionCountDecryption (ctx : Ctx) (category : string) : M unit :=
  count ← gets (fun s => (encryptedIntersectionCount s).[category]);
  require (FHE_isInitialized count) CategoryNotFound;;
  let ciphertexts := [FHE_toBytes32 count] in
  reqId ← requestDecryption ctx ciphertexts decryptIntersectionCount_selector;
  modify (fun s => set_requestToGeometryId
    (<[reqId := categoryHash category]> (requestToGeometryId s)) s).

(** The loop of [getCategoryFromHash], from index 0 upwards. *)
Fixpoint scanCategories (hash : uint256) (categories : list string) : option string :=
  match categories with
  | [] => None
  | c :: rest =>
      if bytes32ToUint (keccak256 (encodePacked c)) =? hash then Some c
      else scanCategories hash rest
  end.

Definition getCategoryFromHash (hash : uint256) : M string :=
  categories ← gets intersectionCategories;
  from_option (scanCategories hash categories) CategoryNotFound.

Definition decryptIntersectionCount (ctx : Ctx) (requestId : uint256)
    (cleartexts proof : bytes) : M unit :=
  categoryHash ← gets (fun s => (requestToGeometryId s).[requestId]);
  category ← getCategoryFromHash categoryHash;
  require (FHE_checkSignatures requestId cleartexts proof) ProofVerificationFailed;;
  count ← from_option (Abi.decode_uint32 cleartexts) AbiDecodeFailed;
  mret tt.

(** ** Transactions *)

(** The external interface: the seven functions and the getters of the
    three public state variables. *)
Inductive Call :=
| SubmitEncryptedGeometry (encryptedShape2D encryptedShape3D : euint32)
| RequestGeometryDecryption (geometryId : uint256)
| DecryptGeometry (requestId : uint256) (cleartexts proof : bytes)
| GetDecryptedGeometry (geometryId : uint256)
| GetEncryptedIntersectionCount (category : string)
| RequestIntersectionCountDecryption (category : string)
| DecryptIntersectionCount (requestId : uint256) (cleartexts proof : bytes)
| GetGeometryCount
| GetEncryptedGeometries (key : uint256)
| GetDecryptedGeometries (key : uint256).

Inductive ReturnData :=
| RNone
| RUint (v : uint256)
| RHandle (h : euint32)
| RDecrypted (shape2D shape3D : string) (isDecrypted : bool)
| REncrypted (g : EncryptedGeometry).

Definition dispatch (ctx : Ctx) (c : Call) : M ReturnData :=
  match c with
  | SubmitEncryptedGeometry e2 e3 =>
      submitEncryptedGeometry ctx e2 e3;; mret RNone
  | RequestGeometryDecryption geometryId =>
      requestGeometryDecryption ctx geometryId;; mret RNone
  | DecryptGeometry requestId cleartexts proof =>
      decryptGeometry ctx requestId cleartexts proof;; mret RNone
  | GetDecryptedGeometry geometryId =>
      '(s2, s3, b) ← getDecryptedGeometry ctx geometryId; mret (RDecrypted s2 s3 b)
  | GetEncryptedIntersectionCount category =>
      h ← getEncryptedIntersectionCount ctx category; mret (RHandle h)
  | RequestIntersectionCountDecryption category =>
      requestIntersectionCountDecryption ctx category;; mret RNone
  | DecryptIntersectionCount requestId cleartexts proof =>
      decryptIntersectionCount ctx requestId cleartexts proof;; mret RNone
  | GetGeometryCount =>
      n ← gets geometryCount; mret (RUint n)
  | GetEncryptedGeometries key =>
      g ← gets (fun s => (encryptedGeometries s).[key]); mret (REncrypted g)
  | GetDecryptedGeometries key =>
      d ← gets (fun s => (decryptedGeometries s).[key]);
      mret (RDecrypted (shape2D d) (shape3D d) (isDecrypted d))
  end.

Inductive Outcome :=
| Returned (r : ReturnData)
| Reverted (e : Error).

(** One transaction: a revert restores the state the call started from. *)
Definition transact (ctx : Ctx) (c : Call) (s : State) : Outcome * State :=
  match dispatch ctx c s with
  | (inr r, s') => (Returned r, s')
  | (inl e, _) => (Reverted e, s)
  end.

Definition outcome (ctx : Ctx) (c : Call) (s : State) : Outcome := fst (transact ctx c s).
Definition step (s : State) (tx : Ctx * Call) : State := snd (transact tx.1 tx.2 s).

(** A history of transactions, oldest first. *)
Definition run (txs : list (Ctx * Call)) (s : State) : State := fold_left step txs s.

Definition reachable (s : State) : Prop := exists txs, s = run txs initial.

End Contract.

(** ** Closed forms

    The state each function leaves behind when it goes through, written out
    field by field. The lemmas of the second part show that the bodies above
    compute exactly these. *)

Section PostStates.
Context {F : FHEVM}.

(** The state after a submission that does not overflow the counter. *)
Definition submitted (ctx : Ctx) (e2 e3 : euint32) (s : State) : State :=
  let newId := geometryCount s + 1 in
  {| geometryCount := newId;
     encryptedGeometries :=
       <[newId := {| id := newId; encryptedShape2D := e2; encryptedShape3D := e3;
                     timestamp := block_timestamp ctx |}]> (encryptedGeometries s);
     decryptedGeometries :=
       <[newId := {| shape2D := ""; shape3D := ""; isDecrypted := false |}]>
         (decryptedGeometries s);
     encryptedIntersectionCount := encryptedIntersectionCount s;
     intersectionCategories := intersectionCategories s;
     requestToGeometryId := requestToGeometryId s;
     events := GeometrySubmitted newId (block_timestamp ctx) :: events s;
     oracleRequests := oracleRequests s |}.

Definition geometryHandles (geometryId : uint256) (s : State) : list bytes32 :=
  [FHE_toBytes32 (encryptedShape2D (encryptedGeometries s).[geometryId]);
   FHE_toBytes32 (encryptedShape3D (encryptedGeometries s).[geometryId])].

(** Whether the library lets a geometry request in [s] through. *)
Definition requestAllowed (ctx : Ctx) (geometryId : uint256) (s : State) : bool :=
  forallb (isAllowed ctx) (geometryHandles geometryId s).

(** The request id the library hands out for a geometry request in [s]. *)
Definition geometryRequestId (geometryId : uint256) (s : State) : uint256 :=
  FHE_requestDecryption (geometryHandles geometryId s) decryptGeometry_selector
                        (oracleRequests s).

(** The state after an accepted geometry decryption request. *)
Definition requested (geometryId : uint256) (s : State) : State :=
  {| geometryCount := geometryCount s;
     encryptedGeometries := encryptedGeometries s;
     decryptedGeometries := decryptedGeometries s;
     encryptedIntersectionCount := encryptedIntersectionCount s;
     intersectionCategories := intersectionCategories s;
     requestToGeometryId :=
       <[geometryRequestId geometryId s := geometryId]> (requestToGeometryId s);
     events := DecryptionRequested geometryId :: events s;
     oracleRequests :=
       {| or_requestId := geometryRequestId geometryId s;
          or_handles := geometryHandles geometryId s;
          or_selector := decryptGeometry_selector |} :: oracleRequests s |}.

(** The counter a geometry callback adds to: the stored one, or the
    encrypted zero the callback has just stored for a new category. *)
Definition foldOperand (category : string) (s : State) : euint32 :=
  let count := (encryptedIntersectionCount s).[category] in
  if FHE_isInitialized count then count else FHE_asEuint32 0.

(** Whether the library lets the addition of a geometry callback through. *)
Definition foldAllowed (ctx : Ctx) (category : string) (s : State) : bool :=
  isAllowed ctx (FHE_toBytes32 (foldOperand category s)) &&
  isAllowed ctx (FHE_toBytes32 (FHE_asEuint32 1)).

(** The state after a geometry callback that went through, with decoded
    strings [r0] and [r1]. *)
Definition decrypted (geometryId : uint256) (r0 r1 : string) (s : State) : State :=
  let count := (encryptedIntersectionCount s).[r1] in
  {| geometryCount := geometryCount s;
     encryptedGeometries := encryptedGeometries s;
     decryptedGeometries :=
       <[geometryId := {| shape2D := r0; shape3D := r1; isDecrypted := true |}]>
         (decryptedGeometries s);
     encryptedIntersectionCount :=
       <[r1 := FHE_add (if FHE_isInitialized count then count else FHE_asEuint32 0)
                       (FHE_asEuint32 1)]> (encryptedIntersectionCount s);
     intersectionCategories :=
       if FHE_isInitialized count then intersectionCategories s
       else intersectionCategories s ++ [r1];
     requestToGeometryId := requestToGeometryId s;
     events := GeometryDecrypted geometryId :: events s;
     oracleRequests := oracleRequests s |}.

(** The storage at the point where the library refuses the addition. *)
Definition foldRefused (geometryId : uint256) (r0 r1 : string) (s : State) : State :=
  let count := (encryptedIntersectionCount s).[r1] in
  {| geometryCount := geometryCount s;
     encryptedGeometries := encryptedGeometries s;
     decryptedGeometries :=
       <[geometryId := {| shape2D := r0; shape3D := r1; isDecrypted := true |}]>
         (decryptedGeometries s);
     encryptedIntersectionCount :=
       if FHE_isInitialized count then encryptedIntersectionCount s
       else <[r1 := FHE_asEuint32 0]> (encryptedIntersectionCount s);
     intersectionCategories :=
       if FHE_isInitialized count then intersectionCategories s
       else intersectionCategories s ++ [r1];
     requestToGeometryId := requestToGeometryId s;
     events := events s;
     oracleRequests := oracleRequests s |}.

(** The storage at the point where [results[1]] is out of bounds. *)
Definition halfWritten (geometryId : uint256) (r0 : string) (s : State) : State :=
  set_decryptedGeometries
    (<[geometryId := {| shape2D := r0;
                        shape3D := shape3D (decryptedGeometries s).[geometryId];
                        isDecrypted := isDecrypted (decryptedGeometries s).[geometryId] |}]>
       (decryptedGeometries s)) s.

(** Whether the library lets a category count request in [s] through. *)
Definition countRequestAllowed (ctx : Ctx) (category : string) (s : State) : bool :=
  isAllowed ctx (FHE_toBytes32 (encryptedIntersectionCount s).[category]).

Definition countRequestId (category : string) (s : State) : uint256 :=
  FHE_requestDecryption [FHE_toBytes32 (encryptedIntersectionCount s).[category]]
                        decryptIntersectionCount_selector (oracleRequests s).

(** The state after an accepted category count decryption request. *)
Definition countRequested (category : string) (s : State) : State :=
  {| geometryCount := geometryCount s;
     encryptedGeometries := encryptedGeometries s;
     decryptedGeometries := decryptedGeometries s;
     encryptedIntersectionCount := encryptedIntersectionCount s;
     intersectionCategories := intersectionCategories s;
     requestToGeometryId :=
       <[countRequestId category s := categoryHash category]> (requestToGeometryId s);
     events := events s;
     oracleRequests :=
       {| or_requestId := countRequestId category s;
          or_handles := [FHE_toBytes32 (encryptedIntersectionCount s).[category]];
          or_selector := decryptIntersectionCount_selector |} :: oracleRequests s |}.

(** The effect of one transaction on the state. *)

Inductive effect (s : State) : Ctx * Call -> State -> Prop :=
| effect_none tx :
    effect s tx s
| effect_submit ctx e2 e3 :
    geometryCount s + 1 <= MAX_UINT256 ->
    effect s (ctx, SubmitEncryptedGeometry e2 e3) (submitted ctx e2 e3 s)
| effect_request ctx geometryId :
    isDecrypted (decryptedGeometries s).[geometryId] = false ->
    requestAllowed ctx geometryId s = true ->
    effect s (ctx, RequestGeometryDecryption geometryId) (requested geometryId s)
| effect_decrypt ctx requestId cleartexts proof r0 r1 rest :
    (requestToGeometryId s).[requestId] <> 0 ->
    isDecrypted (decryptedGeometries s).[(requestToGeometryId s).[requestId]] = false ->
    FHE_checkSignatures requestId cleartexts proof = true ->
    Abi.decode_string_array cleartexts = Some (r0 :: r1 :: rest) ->
    foldAllowed ctx r1 s = true ->
    effect s (ctx, DecryptGeometry requestId cleartexts proof)
           (decrypted (requestToGeometryId s).[requestId] r0 r1 s)
| effect_countRequest ctx category :
    FHE_isInitialized (encryptedIntersectionCount s).[category] = true ->
    countRequestAllowed ctx category s = true ->
    effect s (ctx, RequestIntersectionCountDecryption category)
           (countRequested category s).

(** The error a geometry callback with a rejected proof ends in. *)
Definition rejectedWith (requestId : uint256) (s : State) : Error :=
  if (requestToGeometryId s).[requestId] =? 0 then InvalidRequest
  else if isDecrypted (decryptedGeometries s).[(requestToGeometryId s).[requestId]]
  then AlreadyDecrypted
  else ProofVerificationFailed.

(** Whether a transaction is a geometry callback that goes through and
    whose decoded 3D shape is [category]. *)
Definition foldsInto (category : string) (s : State) (tx : Ctx * Call) : bool :=
  match tx.2 with
  | DecryptGeometry requestId cleartexts proof =>
      match outcome tx.1 tx.2 s, Abi.decode_string_array cleartexts with
      | Returned _, Some (_ :: r1 :: _) => bool_decide (r1 = category)
      | _, _ => false
      end
  | _ => false
  end.

(** The number of such callbacks along a history started in [s]. *)
Fixpoint decryptedInto (category : string) (txs : list (Ctx * Call)) (s : State) : N :=
  match txs with
  | [] => 0
  | tx :: rest =>
      (if foldsInto category s tx then 1 else 0) + decryptedInto category rest (step s tx)
  end.




(** *** The permissions of the deployed contract

    The contract calls neither [FHE.allowThis] nor [FHE.allow]: nothing it
    does makes the library allow it on a handle beyond the transaction that
    produced the handle, and nothing allows it on the zero handle of a slot
    never written. [aclAsDeployed] says of a transaction that it finds the
    access-control list in that condition: refusing the zero handle and
    every counter stored by an earlier transaction. It is a hypothesis of
    the theorems that name it, not part of the contract. The handles of a
    submitted record are another matter: their owner may have allowed the
    contract on them, or not. *)
Definition aclAsDeployed (ctx : Ctx) (s : State) : Prop :=
  isAllowed ctx (FHE_toBytes32 0) = false /\
  forall category,
    FHE_isInitialized (encryptedIntersectionCount s).[category] = true ->
    isAllowed ctx (FHE_toBytes32 (encryptedIntersectionCount s).[category]) = false.

(** A history every transaction of which runs under such a list. *)
Fixpoint deployedRun (txs : list (Ctx * Call)) (s : State) : Prop :=
  match txs with
  | [] => True
  | tx :: rest => aclAsDeployed tx.1 s /\ deployedRun rest (step s tx)
  end.



End PostStates.

(** ** A transparent instance of the library

    An instance to run the contract on concrete inputs. A handle is its
    32-bit cleartext under a tag: bit 32 for a ciphertext that came from
    outside or from [asEuint32], bit 33 for a sum, so that no handle the
    engine produces is zero; request ids are handed out in sequence from 0;
    and the
    proof the oracle attaches to [(requestId, cleartexts)] is the Keccak-256
    digest of the request id word followed by the cleartexts, so that a
    proof for one answer is not accepted for another. *)

Definition attestation (requestId : uint256) (cleartexts : bytes) : bytes :=
  Abi.be_bytes32 (keccak256 (Abi.be_bytes32 requestId ++ cleartexts)).

Definition transparent : FHEVM := {|
  FHE_asEuint32 v := 2 ^ 32 + v mod MOD_UINT32;
  FHE_add a b := 2 ^ 33 + (a + b) mod MOD_UINT32;
  FHE_isInitialized h := negb (h =? 0);
  FHE_toBytes32 h := h;
  FHE_requestDecryption _ _ sent := N.of_nat (length sent);
  FHE_checkSignatures requestId cleartexts proof :=
    bool_decide (map Byte.to_N proof = map Byte.to_N (attestation requestId cleartexts));
  FHE_cleartext h := h mod MOD_UINT32
|}.

(** ** Concrete scenarios *)

(** The access-control list of the scenarios: the contract is allowed on
    the handles under tag bit 32, which are the ciphertexts its users
    submitted and allowed it on and the encryptions it makes within a
    transaction. It is allowed neither on the zero handle nor on a sum, which
    is what a counter stored by an earlier transaction is. *)
Definition granted (h : bytes32) : bool := (2 ^ 32 <=? h) && (h <? 2 ^ 33).

Definition alice : Ctx :=
  {| msg_sender := 0xA11CE; block_timestamp := 1700000000; isAllowed := granted |}.
Definition bob : Ctx :=
  {| msg_sender := 0xB0B; block_timestamp := 1700000360; isAllowed := granted |}.

Definition cubePayload : bytes := Abi.encode_string_array ["square"; "cube"]%string.
Definition spherePayload : bytes := Abi.encode_string_array ["circle"; "sphere"]%string.
Definition emptyPayload : bytes := Abi.encode_string_array [""; ""]%string.

(** One record submitted and its decryption requested twice: request ids 0
    and 1 both stand for record 1. *)
Definition requestedTwice : State :=
  run (F := transparent)
      [(alice, SubmitEncryptedGeometry 0x100000007 0x100000009);
       (alice, RequestGeometryDecryption 1);
       (bob, RequestGeometryDecryption 1)] initial.

(** Record 1 decrypted into category "cube", then the count of that category
    requested. The contract is not allowed on the counter the callback
    stored, the request is refused, and the state is the one the callback
    left: the only request id is 0, which stands for record 1. *)
Definition countRequestedHistory : list (Ctx * Call) :=
  [(alice, SubmitEncryptedGeometry 0x100000007 0x100000009);
   (alice, RequestGeometryDecryption 1);
   (alice, DecryptGeometry 0 cubePayload (attestation 0 cubePayload));
   (bob, RequestIntersectionCountDecryption "cube")].

Definition countRequestedState : State :=
  run (F := transparent) countRequestedHistory initial.

(** A record whose owner has not allowed the contract on its ciphertexts. *)
Definition notAllowedSubmitted : State :=
  run (F := transparent)
      [(alice, SubmitEncryptedGeometry 0x300000007 0x300000009)] initial.

(** Round [k] of a long history: the next record is submitted, its
    decryption requested and the callback delivered with an attested payload
    whose 3D shape is "cube". *)
Definition oneRound (k : N) : list (Ctx * Call) :=
  [(alice, SubmitEncryptedGeometry 0x100000007 0x100000009);
   (alice, RequestGeometryDecryption (k + 1));
   (bob, DecryptGeometry k cubePayload (attestation k cubePayload))].

(** A second round whose callback carries the 3D shape "sphere". *)
Definition sphereRound : list (Ctx * Call) :=
  [(alice, SubmitEncryptedGeometry 0x100000007 0x100000009);
   (alice, RequestGeometryDecryption 2);
   (bob, DecryptGeometry 1 spherePayload (attestation 1 spherePayload))].

(** The state after the first round: record 1 folded into "cube". *)
Definition cubeDecrypted : State := run (F := transparent) (oneRound 0) initial.

(** After the first round, a second record submitted and its decryption
    requested: request id 1 stands for record 2. *)
Definition secondRequested : State :=
  run (F := transparent)
      [(alice, SubmitEncryptedGeometry 0x100000007 0x100000009);
       (alice, RequestGeometryDecryption 2)] cubeDecrypted.

(** With the transparent library a stored counter is a sum: zero where
    nothing was stored, a handle under tag bit 33 otherwise. *)
Definition countersAreSums (s : State) : Prop :=
  forall category,
    (encryptedIntersectionCount s).[category] = 0 \/
    2 ^ 33 <= (encryptedIntersectionCount s).[category].

(** A history of [n] submissions and nothing else. *)
Definition submissions (n : N) : list (Ctx * Call) :=
  N.peano_rect (fun _ => list (Ctx * Call)) []
    (fun _ history => history ++ [(alice, SubmitEncryptedGeometry 0x100000007 0x100000009)])
    n.

(** ** Logs and histories, for the properties of whole runs *)

(** The ids of the [GeometrySubmitted] events of a log, in log order. *)
Definition submittedIds (log : list Event) : list uint256 :=
  omap (fun e => match e with GeometrySubmitted g _ => Some g | _ => None end) log.

(** [n, n-1, ..., 1]. *)
Fixpoint idsDownFrom (n : nat) : list uint256 :=
  match n with
  | O => []
  | S n' => N.of_nat n :: idsDownFrom n'
  end.

Section Histories.
Context {F : FHEVM}.

(** Whether a transaction is a geometry callback that goes through for a
    request id standing for [g]. *)
Definition appliesTo (g : uint256) (s : State) (tx : Ctx * Call) : bool :=
  match tx.2 with
  | DecryptGeometry requestId cleartexts proof =>
      match outcome tx.1 tx.2 s with
      | Returned _ => (requestToGeometryId s).[requestId] =? g
      | Reverted _ => false
      end
  | _ => false
  end.

(** The number of such callbacks along a history started in [s]. *)
Fixpoint callbacksFor (g : uint256) (txs : list (Ctx * Call)) (s : State) : N :=
  match txs with
  | [] => 0
  | tx :: rest => (if appliesTo g s tx then 1 else 0) + callbacksFor g rest (step s tx)
  end.

(** A counter is initialized exactly for the listed categories. *)
Definition listedInv (s : State) : Prop :=
  forall c, FHE_isInitialized (encryptedIntersectionCount s).[c] = true <->
            c ∈ intersectionCategories s.

(** Nothing is stored under id 0. *)
Definition zeroInv (s : State) : Prop :=
  encryptedGeometries s !! 0 = None /\ decryptedGeometries s !! 0 = None.

(** The encrypted records are those of the ids 1 to [geometryCount]. *)
Definition recordsInv (s : State) : Prop :=
  geometryCount s <= MAX_UINT256 /\
  forall g, match encryptedGeometries s !! g with
            | Some r => 0 < g <= geometryCount s /\ id r = g
            | None => g = 0 \/ geometryCount s < g
            end.

(** Every entry of the correlation table is under a request id that was
    handed out for a request sent to the oracle. *)
Definition tableInv (s : State) : Prop :=
  forall rid v, requestToGeometryId s !! rid = Some v ->
                rid ∈ or_requestId <$> oracleRequests s.

(** A set flag has its event, and the 3D shape under it is a listed
    category. *)
Definition decryptedInv (s : State) : Prop :=
  forall g, isDecrypted (decryptedGeometries s).[g] = true ->
            GeometryDecrypted g ∈ events s /\
            shape3D (decryptedGeometries s).[g] ∈ intersectionCategories s.
End Histories.

Definition squarePayload : bytes := Abi.encode_string_array ["square"]%string.

(** One record submitted, nothing else. *)
Definition oneSubmitted : State :=
  run (F := transparent)
      [(alice, SubmitEncryptedGeometry 0x100000007 0x100000009)] initial.

(** * Properties *)

(** ** The builtins on known inputs *)

Example keccak256_empty :
  keccak256 [] = 0xc5d2460186f7233c927e7db2dcc703c0e500b653ca82273b7bfad8045d85a470.
Proof. vm_compute. reflexivity. Qed.

Example keccak256_abc :
  keccak256 (list_byte_of_string "abc") =
  0x4e03657aea45a94fc7d47ba826c8d667c0d1e6e33a64a036ec44f58fa12d6c45.
Proof. vm_compute. reflexivity. Qed.

Example categoryHash_cube :
  categoryHash "cube" = 0x74ebb80027356d089a3bd2058e722161a1e0137686721f03d56bb6eb72c98794.
Proof. vm_compute. reflexivity. Qed.

Example decryptGeometry_selector_value : decryptGeometry_selector = 0x1668b4de.
Proof. reflexivity. Qed.

Example decode_encode_two :
  Abi.decode_string_array (Abi.encode_string_array ["square"; "cube"]%string)
  = Some ["square"; "cube"]%string.
Proof. vm_compute. reflexivity. Qed.

Example decode_encode_long :
  Abi.decode_string_array
    (Abi.encode_string_array [""; "a shape name that is longer than one word"]%string)
  = Some [""; "a shape name that is longer than one word"]%string.
Proof. vm_compute. reflexivity. Qed.

Example decode_uint32_word :
  Abi.decode_uint32 (Abi.encode_uint32 7) = Some 7.
Proof. vm_compute. reflexivity. Qed.

Example decode_uint32_as_strings :
  Abi.decode_string_array (Abi.encode_uint32 7) = None.
Proof. vm_compute. reflexivity. Qed.

(** ** Mapping reads *)

Lemma mget_insert_eq `{Countable K} `{SolDefault V} (m : gmap K V) k v :
  (<[k := v]> m).[k] = v.
Proof. unfold mget. by rewrite lookup_insert_eq. Qed.

Lemma mget_insert_ne `{Countable K} `{SolDefault V} (m : gmap K V) k k' v :
  k ≠ k' -> (<[k := v]> m).[k'] = m.[k'].
Proof. intros Hne. unfold mget. by rewrite lookup_insert_ne. Qed.

Lemma mget_empty `{Countable K} `{SolDefault V} (k : K) :
  (∅ : gmap K V).[k] = sol_default.
Proof. unfold mget. by rewrite lookup_empty. Qed.

(** ** The bodies compute the closed forms *)

Section Bodies.
Context {F : FHEVM}.

Lemma submitEncryptedGeometry_eq ctx e2 e3 s :
  submitEncryptedGeometry ctx e2 e3 s =
    if geometryCount s + 1 <=? MAX_UINT256 then (inr tt, submitted ctx e2 e3 s)
    else (inl (Panic 0x11), s).
Proof.
  unfold submitEncryptedGeometry, checked_add, mbind, M_bind, gets. cbn.
  destruct (geometryCount s + 1 <=? MAX_UINT256); reflexivity.
Qed.

Lemma requestGeometryDecryption_eq ctx geometryId s :
  requestGeometryDecryption ctx geometryId s =
    if isDecrypted (decryptedGeometries s).[geometryId]
    then (inl AlreadyDecrypted, s)
    else if requestAllowed ctx geometryId s
    then (inr tt, requested geometryId s)
    else (inl SenderNotAllowed, s).
Proof.
  unfold requestGeometryDecryption, onlyParticipant, requestDecryption,
    mbind, M_bind, gets. cbn.
  destruct (isDecrypted (decryptedGeometries s).[geometryId]); [reflexivity|]. cbn.
  unfold requestAllowed, geometryHandles. cbn.
  destruct (isAllowed ctx _ && (isAllowed ctx _ && true)); reflexivity.
Qed.

Lemma decryptGeometry_eq ctx requestId cleartexts proof s :
  decryptGeometry ctx requestId cleartexts proof s =
    let geometryId := (requestToGeometryId s).[requestId] in
    if geometryId =? 0 then (inl InvalidRequest, s)
    else if isDecrypted (decryptedGeometries s).[geometryId]
    then (inl AlreadyDecrypted, s)
    else if negb (FHE_checkSignatures requestId cleartexts proof)
    then (inl ProofVerificationFailed, s)
    else match Abi.decode_string_array cleartexts with
         | None => (inl AbiDecodeFailed, s)
         | Some [] => (inl (Panic 0x32), s)
         | Some [r0] => (inl (Panic 0x32), halfWritten geometryId r0 s)
         | Some (r0 :: r1 :: _) =>
             if foldAllowed ctx r1 s then (inr tt, decrypted geometryId r0 r1 s)
             else (inl ACLNotAllowed, foldRefused geometryId r0 r1 s)
         end.
Proof.
  unfold decryptGeometry, mbind, M_bind, gets, require. cbn.
  destruct ((requestToGeometryId s).[requestId] =? 0); [reflexivity|]. cbn.
  destruct (isDecrypted _) eqn:Hd; [reflexivity|]. cbn.
  destruct (FHE_checkSignatures _ _ _); [|reflexivity]. cbn.
  destruct (Abi.decode_string_array cleartexts) as [[|r0 [|r1 rest]]|];
    try reflexivity.
  cbn. unfold write_shape2D, write_shape3D, write_isDecrypted, write_count,
    emit, modify, mret, M_ret. cbn.
  rewrite !mget_insert_eq. cbn. rewrite !insert_insert_eq.
  unfold add, foldAllowed, foldOperand, require, mbind, M_bind.
  destruct (FHE_isInitialized _) eqn:Hi; cbn.
  - destruct (isAllowed ctx _ && isAllowed ctx _); cbn.
    + unfold decrypted. cbn. rewrite Hi. reflexivity.
    + unfold foldRefused. cbn. rewrite Hi. reflexivity.
  - rewrite mget_insert_eq.
    destruct (isAllowed ctx _ && isAllowed ctx _); cbn.
    + unfold decrypted. cbn. rewrite Hi. rewrite insert_insert_eq. reflexivity.
    + unfold foldRefused. cbn. rewrite Hi. reflexivity.
Qed.

Lemma requestIntersectionCountDecryption_eq ctx category s :
  requestIntersectionCountDecryption ctx category s =
    if FHE_isInitialized (encryptedIntersectionCount s).[category]
    then if countRequestAllowed ctx category s
         then (inr tt, countRequested category s)
         else (inl SenderNotAllowed, s)
    else (inl CategoryNotFound, s).
Proof.
  unfold requestIntersectionCountDecryption, requestDecryption, mbind, M_bind, gets.
  cbn. destruct (FHE_isInitialized _); [|reflexivity]. cbn.
  unfold countRequestAllowed.
  destruct (isAllowed ctx _); reflexivity.
Qed.

Lemma decryptIntersectionCount_eq ctx requestId cleartexts proof s :
  decryptIntersectionCount ctx requestId cleartexts proof s =
    match scanCategories (requestToGeometryId s).[requestId] (intersectionCategories s) with
    | None => (inl CategoryNotFound, s)
    | Some _ =>
        if FHE_checkSignatures requestId cleartexts proof
        then match Abi.decode_uint32 cleartexts with
             | Some _ => (inr tt, s)
             | None => (inl AbiDecodeFailed, s)
             end
        else (inl ProofVerificationFailed, s)
    end.
Proof.
  unfold decryptIntersectionCount, getCategoryFromHash, mbind, M_bind, gets. cbn.
  destruct (scanCategories _ _); [|reflexivity]. cbn.
  destruct (FHE_checkSignatures _ _ _); [|reflexivity]. cbn.
  destruct (Abi.decode_uint32 _); reflexivity.
Qed.

(** *** Transactions, function by function *)

Lemma transact_submit ctx e2 e3 s :
  transact ctx (SubmitEncryptedGeometry e2 e3) s =
    if geometryCount s + 1 <=? MAX_UINT256
    then (Returned RNone, submitted ctx e2 e3 s)
    else (Reverted (Panic 0x11), s).
Proof.
  unfold transact, dispatch, mbind, M_bind. rewrite submitEncryptedGeometry_eq.
  destruct (_ <=? _); reflexivity.
Qed.

Lemma transact_request ctx geometryId s :
  transact ctx (RequestGeometryDecryption geometryId) s =
    if isDecrypted (decryptedGeometries s).[geometryId]
    then (Reverted AlreadyDecrypted, s)
    else if requestAllowed ctx geometryId s
    then (Returned RNone, requested geometryId s)
    else (Reverted SenderNotAllowed, s).
Proof.
  unfold transact, dispatch, mbind, M_bind. rewrite requestGeometryDecryption_eq.
  destruct (isDecrypted _); [reflexivity|].
  destruct (requestAllowed _ _ _); reflexivity.
Qed.

Lemma transact_decryptGeometry ctx requestId cleartexts proof s :
  transact ctx (DecryptGeometry requestId cleartexts proof) s =
    let geometryId := (requestToGeometryId s).[requestId] in
    if geometryId =? 0 then (Reverted InvalidRequest, s)
    else if isDecrypted (decryptedGeometries s).[geometryId]
    then (Reverted AlreadyDecrypted, s)
    else if negb (FHE_checkSignatures requestId cleartexts proof)
    then (Reverted ProofVerificationFailed, s)
    else match Abi.decode_string_array cleartexts with
         | None => (Reverted AbiDecodeFailed, s)
         | Some (r0 :: r1 :: _) =>
             if foldAllowed ctx r1 s
             then (Returned RNone, decrypted geometryId r0 r1 s)
             else (Reverted ACLNotAllowed, s)
         | Some _ => (Reverted (Panic 0x32), s)
         end.
Proof.
  unfold transact, dispatch, mbind, M_bind. rewrite decryptGeometry_eq. cbn.
  destruct (_ =? 0); [reflexivity|].
  destruct (isDecrypted _); [reflexivity|].
  destruct (FHE_checkSignatures _ _ _); [|reflexivity]. cbn.
  destruct (Abi.decode_string_array _) as [[|r0 [|r1 rest]]|]; try reflexivity.
  destruct (foldAllowed _ _ _); reflexivity.
Qed.

Lemma transact_countRequest ctx category s :
  transact ctx (RequestIntersectionCountDecryption category) s =
    if FHE_isInitialized (encryptedIntersectionCount s).[category]
    then if countRequestAllowed ctx category s
         then (Returned RNone, countRequested category s)
         else (Reverted SenderNotAllowed, s)
    else (Reverted CategoryNotFound, s).
Proof.
  unfold transact, dispatch, mbind, M_bind.
  rewrite requestIntersectionCountDecryption_eq.
  destruct (FHE_isInitialized _); [|reflexivity].
  destruct (countRequestAllowed _ _ _); reflexivity.
Qed.

Lemma transact_decryptCount ctx requestId cleartexts proof s :
  transact ctx (DecryptIntersectionCount requestId cleartexts proof) s =
    match scanCategories (requestToGeometryId s).[requestId] (intersectionCategories s) with
    | None => (Reverted CategoryNotFound, s)
    | Some _ =>
        if FHE_checkSignatures requestId cleartexts proof
        then match Abi.decode_uint32 cleartexts with
             | Some _ => (Returned RNone, s)
             | None => (Reverted AbiDecodeFailed, s)
             end
        else (Reverted ProofVerificationFailed, s)
    end.
Proof.
  unfold transact, dispatch, mbind, M_bind. rewrite decryptIntersectionCount_eq.
  destruct (scanCategories _ _); [|reflexivity].
  destruct (FHE_checkSignatures _ _ _); [|reflexivity].
  destruct (Abi.decode_uint32 _); reflexivity.
Qed.

Lemma transact_getDecrypted ctx geometryId s :
  transact ctx (GetDecryptedGeometry geometryId) s =
    (Returned (RDecrypted (shape2D (decryptedGeometries s).[geometryId])
                          (shape3D (decryptedGeometries s).[geometryId])
                          (isDecrypted (decryptedGeometries s).[geometryId])), s).
Proof. reflexivity. Qed.

Lemma transact_getCount ctx category s :
  transact ctx (GetEncryptedIntersectionCount category) s =
    (Returned (RHandle (encryptedIntersectionCount s).[category]), s).
Proof. reflexivity. Qed.

Lemma step_effect s tx : effect s tx (step s tx).
Proof.
  destruct tx as [ctx c]. unfold step. cbn [fst snd].
  destruct c.
  - rewrite transact_submit. destruct (_ <=? _) eqn:E; cbn.
    + apply effect_submit. by apply N.leb_le.
    + constructor.
  - rewrite transact_request. destruct (isDecrypted _) eqn:E; [constructor|].
    destruct (requestAllowed ctx geometryId s) eqn:Ea; [|constructor].
    by apply effect_request.
  - rewrite transact_decryptGeometry. cbn.
    destruct (_ =? 0) eqn:E0; [constructor|].
    destruct (isDecrypted _) eqn:E1; [constructor|].
    destruct (FHE_checkSignatures _ _ _) eqn:E2; [|constructor]. cbn.
    destruct (Abi.decode_string_array _) as [[|r0 [|r1 rest]]|] eqn:E3;
      try constructor.
    destruct (foldAllowed ctx r1 s) eqn:Ea; [|constructor].
    cbn. eapply effect_decrypt; eauto. by apply N.eqb_neq.
  - constructor.
  - constructor.
  - rewrite transact_countRequest.
    destruct (FHE_isInitialized _) eqn:E; [|constructor].
    destruct (countRequestAllowed ctx category s) eqn:Ea; [|constructor].
    by apply effect_countRequest.
  - rewrite transact_decryptCount.
    destruct (scanCategories _ _); [|constructor].
    destruct (FHE_checkSignatures _ _ _); [|constructor].
    destruct (Abi.decode_uint32 _); constructor.
  - constructor.
  - constructor.
  - constructor.
Qed.

Lemma run_app txs1 txs2 s : run (txs1 ++ txs2) s = run txs2 (run txs1 s).
Proof. apply fold_left_app. Qed.

Lemma run_cons tx txs s : run (tx :: txs) s = run txs (step s tx).
Proof. reflexivity. Qed.

(** An invariant of every step holds along every history. *)
Lemma run_invariant (P : State -> Prop) :
  (forall s tx, P s -> P (step s tx)) ->
  forall txs s, P s -> P (run txs s).
Proof.
  intros Hstep txs. induction txs as [|tx txs IH]; intros s Hs; [exact Hs|].
  rewrite run_cons. apply IH, Hstep, Hs.
Qed.

Lemma reachable_ind' (P : State -> Prop) :
  P initial ->
  (forall s tx, P s -> P (step s tx)) ->
  forall s, reachable s -> P s.
Proof. intros H0 Hstep s [txs ->]. by apply run_invariant. Qed.

Lemma geometryCount_step s tx : geometryCount s <= geometryCount (step s tx).
Proof. destruct (step_effect s tx); cbn; lia. Qed.

Lemma geometryCount_run txs s : geometryCount s <= geometryCount (run txs s).
Proof.
  revert s. induction txs as [|tx txs IH]; intros s; [cbn; lia|].
  rewrite run_cons. pose proof (geometryCount_step s tx). specialize (IH (step s tx)). lia.
Qed.

(** The only way a set flag is cleared: a submission that assigns the id. *)
Lemma isDecrypted_cleared s tx g :
  isDecrypted (decryptedGeometries s).[g] = true ->
  isDecrypted (decryptedGeometries (step s tx)).[g] = false ->
  exists ctx e2 e3,
    tx = (ctx, SubmitEncryptedGeometry e2 e3) /\ g = geometryCount s + 1.
Proof.
  intros Ht Hf. destruct (step_effect s tx); cbn in Hf.
  - congruence.
  - destruct (decide (geometryCount s + 1 = g)) as [<-|Hne]; [eauto|].
    rewrite mget_insert_ne in Hf by done. congruence.
  - congruence.
  - destruct (decide ((requestToGeometryId s).[requestId] = g)) as [<-|Hne].
    + rewrite mget_insert_eq in Hf. discriminate.
    + rewrite mget_insert_ne in Hf by done. congruence.
  - congruence.
Qed.

Lemma isDecrypted_kept_step s tx g :
  isDecrypted (decryptedGeometries s).[g] = true ->
  g <= geometryCount s \/ geometryCount (step s tx) < g ->
  isDecrypted (decryptedGeometries (step s tx)).[g] = true.
Proof.
  intros Ht Hg.
  destruct (isDecrypted (decryptedGeometries (step s tx)).[g]) eqn:E; [done|].
  destruct (isDecrypted_cleared s tx g Ht E) as (ctx & e2 & e3 & -> & ->).
  exfalso. destruct Hg as [Hg|Hg]; [lia|].
  revert Hg. unfold step. cbn [fst snd]. rewrite transact_submit.
  revert E. unfold step. cbn [fst snd]. rewrite transact_submit.
  destruct (_ <=? _); cbn; [lia | congruence].
Qed.

Lemma isDecrypted_kept_run txs s g :
  isDecrypted (decryptedGeometries s).[g] = true ->
  g <= geometryCount s \/ geometryCount (run txs s) < g ->
  isDecrypted (decryptedGeometries (run txs s)).[g] = true.
Proof.
  revert s. induction txs as [|tx txs IH]; intros s Ht Hg; [exact Ht|].
  rewrite run_cons in *.
  pose proof (geometryCount_step s tx). pose proof (geometryCount_run txs (step s tx)).
  apply IH.
  - apply isDecrypted_kept_step; [done|]. destruct Hg; [left; lia | right; lia].
  - destruct Hg; [left; lia | right; lia].
Qed.

Lemma step_submit ctx e2 e3 s :
  geometryCount s + 1 <= MAX_UINT256 ->
  step s (ctx, SubmitEncryptedGeometry e2 e3) = submitted ctx e2 e3 s.
Proof.
  intros Hroom. unfold step. cbn [fst snd]. rewrite transact_submit.
  apply N.leb_le in Hroom. by rewrite Hroom.
Qed.

Lemma step_request ctx geometryId s :
  isDecrypted (decryptedGeometries s).[geometryId] = false ->
  requestAllowed ctx geometryId s = true ->
  step s (ctx, RequestGeometryDecryption geometryId) = requested geometryId s.
Proof.
  intros Hfresh Hacl. unfold step. cbn [fst snd]. rewrite transact_request.
  by rewrite Hfresh, Hacl.
Qed.

Lemma step_decrypt category ctx requestId cleartexts proof r0 r1 rest s :
  (requestToGeometryId s).[requestId] <> 0 ->
  isDecrypted (decryptedGeometries s).[(requestToGeometryId s).[requestId]] = false ->
  FHE_checkSignatures requestId cleartexts proof = true ->
  Abi.decode_string_array cleartexts = Some (r0 :: r1 :: rest) ->
  foldAllowed ctx r1 s = true ->
  step s (ctx, DecryptGeometry requestId cleartexts proof)
    = decrypted (requestToGeometryId s).[requestId] r0 r1 s /\
  foldsInto category s (ctx, DecryptGeometry requestId cleartexts proof)
    = bool_decide (r1 = category).
Proof.
  intros Hne Hfresh Hok Hdec Hacl. unfold foldsInto, outcome, step. cbn [fst snd].
  rewrite transact_decryptGeometry. cbn.
  apply N.eqb_neq in Hne. by rewrite Hne, Hfresh, Hok, Hdec, Hacl.
Qed.

Lemma decryptedInto_app category txs1 txs2 s :
  decryptedInto category (txs1 ++ txs2) s
    = decryptedInto category txs1 s + decryptedInto category txs2 (run txs1 s).
Proof.
  revert s. induction txs1 as [|tx txs1 IH]; intros s; [done|].
  cbn [app decryptedInto]. rewrite run_cons, IH. lia.
Qed.
End Bodies.

(** ** Guards and effects of the single functions *)

Section Claims.
Context {F : FHEVM}.

Lemma decryptGeometry_returned ctx requestId cleartexts proof s r :
  outcome ctx (DecryptGeometry requestId cleartexts proof) s = Returned r ->
  (requestToGeometryId s).[requestId] <> 0 /\
  isDecrypted (decryptedGeometries s).[(requestToGeometryId s).[requestId]] = false /\
  FHE_checkSignatures requestId cleartexts proof = true /\
  exists r0 r1 rest,
    Abi.decode_string_array cleartexts = Some (r0 :: r1 :: rest) /\
    foldAllowed ctx r1 s = true /\
    step s (ctx, DecryptGeometry requestId cleartexts proof) =
      decrypted (requestToGeometryId s).[requestId] r0 r1 s.
Proof.
  unfold outcome, step. cbn [fst snd]. rewrite transact_decryptGeometry. cbn.
  destruct (_ =? 0) eqn:E0; [discriminate|].
  destruct (isDecrypted _) eqn:E1; [discriminate|].
  destruct (FHE_checkSignatures _ _ _) eqn:E2; [|discriminate]. cbn.
  destruct (Abi.decode_string_array _) as [[|r0 [|r1 rest]]|] eqn:E3;
    try discriminate.
  destruct (foldAllowed ctx r1 s) eqn:E4; [|discriminate].
  intros _. apply N.eqb_neq in E0.
  split; [done|]. split; [done|]. split; [done|].
  exists r0, r1, rest. done.
Qed.

(** C1. For the id [g] of a submitted record that is not yet decrypted: a
    geometry callback for a request id standing for [g], with an accepted
    proof, a payload that decodes to the two shape strings and a library
    that lets the addition to the category counter through, is applied, and
    after it (and after any transactions in between) every geometry
    callback for a request id standing for [g] reverts with "Already
    decrypted" and leaves the state, category counters included, as it
    was. *)
Theorem second_callback_rejected
    (ctx1 ctx2 : Ctx) (rid1 rid2 g : uint256) (ct1 pf1 ct2 pf2 : bytes)
    (r0 r1 : string) (rest : list string) (txs : list (Ctx * Call)) (s : State) :
  0 < g <= geometryCount s ->
  isDecrypted (decryptedGeometries s).[g] = false ->
  (requestToGeometryId s).[rid1] = g ->
  FHE_checkSignatures rid1 ct1 pf1 = true ->
  Abi.decode_string_array ct1 = Some (r0 :: r1 :: rest) ->
  foldAllowed ctx1 r1 s = true ->
  (requestToGeometryId (run txs (decrypted g r0 r1 s))).[rid2] = g ->
  transact ctx1 (DecryptGeometry rid1 ct1 pf1) s
    = (Returned RNone, decrypted g r0 r1 s) /\
  (decryptedGeometries (decrypted g r0 r1 s)).[g]
    = {| shape2D := r0; shape3D := r1; isDecrypted := true |} /\
  transact ctx2 (DecryptGeometry rid2 ct2 pf2) (run txs (decrypted g r0 r1 s))
    = (Reverted AlreadyDecrypted, run txs (decrypted g r0 r1 s)).
Proof.
  intros [Hpos Hrec] Hfresh Hmap Hok Hdec Hacl Hmap2.
  assert (Hne : (g =? 0) = false) by (apply N.eqb_neq; lia).
  split; [|split].
  - rewrite transact_decryptGeometry. cbn.
    by rewrite Hmap, Hne, Hfresh, Hok, Hdec, Hacl.
  - cbn. by rewrite mget_insert_eq.
  - rewrite transact_decryptGeometry. cbn. rewrite Hmap2, Hne.
    rewrite (isDecrypted_kept_run txs (decrypted g r0 r1 s) g); [reflexivity| |].
    + cbn. by rewrite mget_insert_eq.
    + left. exact Hrec.
Qed.

(** The geometry callback reverts with "Invalid request", leaving the state
    as it was, exactly when the correlation table holds zero for the
    request id. *)
Lemma invalid_request_iff_zero ctx requestId cleartexts proof s :
  if (requestToGeometryId s).[requestId] =? 0
  then transact ctx (DecryptGeometry requestId cleartexts proof) s
         = (Reverted InvalidRequest, s)
  else outcome ctx (DecryptGeometry requestId cleartexts proof) s
         <> Reverted InvalidRequest.
Proof.
  unfold outcome. rewrite transact_decryptGeometry. cbn.
  destruct (_ =? 0); [reflexivity|].
  destruct (isDecrypted _); [discriminate|].
  destruct (FHE_checkSignatures _ _ _); [|discriminate]. cbn.
  destruct (Abi.decode_string_array _) as [[|r0 [|r1 rest]]|]; try discriminate.
  destruct (foldAllowed _ _ _); discriminate.
Qed.

Lemma decryptGeometry_rejected ctx requestId cleartexts proof s :
  FHE_checkSignatures requestId cleartexts proof = false ->
  decryptGeometry ctx requestId cleartexts proof s
    = (inl (rejectedWith requestId s), s).
Proof.
  intros Hbad. unfold rejectedWith. rewrite decryptGeometry_eq. cbn.
  rewrite Hbad. cbn.
  destruct (_ =? 0); [done|]. destruct (isDecrypted _); done.
Qed.

(** C3. In the geometry callback the proof is verified before anything is
    written: a callback whose proof is rejected reverts at a point where
    the storage is still the one the call started from, so every piece of
    state is as it was. The error is "Invalid request" or "Already
    decrypted" when one of the two earlier guards fails, and the
    verification failure otherwise. *)
Theorem proof_checked_before_any_write
    (ctx : Ctx) (requestId : uint256) (cleartexts proof : bytes) (s : State) :
  FHE_checkSignatures requestId cleartexts proof = false ->
  decryptGeometry ctx requestId cleartexts proof s
    = (inl (rejectedWith requestId s), s) /\
  transact ctx (DecryptGeometry requestId cleartexts proof) s
    = (Reverted (rejectedWith requestId s), s).
Proof.
  intros Hbad. split; [by apply decryptGeometry_rejected|].
  unfold transact, dispatch, mbind, M_bind.
  by rewrite decryptGeometry_rejected.
Qed.

(** Conversely, a body that has written anything had its proof accepted. *)
Lemma writes_follow_verification ctx requestId cleartexts proof s r s' :
  decryptGeometry ctx requestId cleartexts proof s = (r, s') ->
  s' <> s ->
  FHE_checkSignatures requestId cleartexts proof = true.
Proof.
  intros Hrun Hne.
  destruct (FHE_checkSignatures requestId cleartexts proof) eqn:E; [done|].
  rewrite (decryptGeometry_rejected ctx _ _ _ s E) in Hrun. congruence.
Qed.

(** At the maximum of the counter a submission reverts and stores nothing. *)
Lemma submit_at_maximum ctx e2 e3 s :
  geometryCount s = MAX_UINT256 ->
  transact ctx (SubmitEncryptedGeometry e2 e3) s = (Reverted (Panic 0x11), s).
Proof. intros Hmax. rewrite transact_submit, Hmax. reflexivity. Qed.

(** C6. A submission made while the counter is below its maximum assigns
    the next id: the id is positive, one above the counter before the
    call, and below the id of every later submission; the encrypted
    record and an empty, not decrypted state are stored under it in the
    same transaction; the id is published in the GeometrySubmitted event,
    the function itself returning nothing. *)
Theorem submit_assigns_next_id (ctx : Ctx) (e2 e3 : euint32) (s : State) :
  geometryCount s < MAX_UINT256 ->
  transact ctx (SubmitEncryptedGeometry e2 e3) s
    = (Returned RNone, submitted ctx e2 e3 s) /\
  0 < geometryCount s + 1 /\
  geometryCount (submitted ctx e2 e3 s) = geometryCount s + 1 /\
  (encryptedGeometries (submitted ctx e2 e3 s)).[geometryCount s + 1]
    = {| id := geometryCount s + 1; encryptedShape2D := e2;
         encryptedShape3D := e3; timestamp := block_timestamp ctx |} /\
  (decryptedGeometries (submitted ctx e2 e3 s)).[geometryCount s + 1]
    = {| shape2D := ""; shape3D := ""; isDecrypted := false |} /\
  events (submitted ctx e2 e3 s)
    = GeometrySubmitted (geometryCount s + 1) (block_timestamp ctx) :: events s /\
  forall txs,
    geometryCount s + 1 < geometryCount (run txs (submitted ctx e2 e3 s)) + 1.
Proof.
  intros Hroom. rewrite transact_submit.
  assert ((geometryCount s + 1 <=? MAX_UINT256) = true) as -> by (apply N.leb_le; lia).
  repeat split; try (cbn; by rewrite ?mget_insert_eq); try lia.
  intros txs. pose proof (geometryCount_run txs (submitted ctx e2 e3 s)) as H.
  cbn in H. lia.
Qed.

(** C9. The category count callback changes nothing: whatever it is called
    with, and also when the proof is accepted and the integer decoded, the
    records, the counters, the category list, the correlation table, the
    event log and the requests sent to the oracle are as before, and the
    call returns no data. *)
Theorem count_callback_changes_nothing
    (ctx : Ctx) (requestId : uint256) (cleartexts proof : bytes) (s : State) :
  step s (ctx, DecryptIntersectionCount requestId cleartexts proof) = s /\
  (outcome ctx (DecryptIntersectionCount requestId cleartexts proof) s = Returned RNone \/
   exists e, outcome ctx (DecryptIntersectionCount requestId cleartexts proof) s
             = Reverted e).
Proof.
  unfold step, outcome. cbn [fst snd]. rewrite transact_decryptCount.
  destruct (scanCategories _ _); [|eauto].
  destruct (FHE_checkSignatures _ _ _); [|eauto].
  destruct (Abi.decode_uint32 _); eauto.
Qed.

(** C10. No operation looks at the caller: two transactions that differ
    only in the sending address (same block, same answers of the
    access-control list, which is asked about the contract and not about the
    caller) end in the same outcome and the same state, the callbacks
    included, and [onlyParticipant] runs its body unchanged. *)
Theorem caller_is_irrelevant
    (sender1 sender2 : N) (now : uint256) (acl : bytes32 -> bool) (c : Call) (s : State) :
  transact {| msg_sender := sender1; block_timestamp := now; isAllowed := acl |} c s
    = transact {| msg_sender := sender2; block_timestamp := now; isAllowed := acl |} c s /\
  forall (A : Type) (geometryId : uint256) (body : M A),
    onlyParticipant {| msg_sender := sender1; block_timestamp := now; isAllowed := acl |}
                    geometryId body
    = body.
Proof. split; [destruct c; reflexivity | reflexivity]. Qed.
End Claims.

(** ** Category counters along a history *)

Section HistoryFacts.
Context {F : FHEVM} {L : FHEVMLaws F}.









(** *** Unregistered categories *)

Lemma unregistered_step category s tx :
  (category ∉ intersectionCategories s -> (encryptedIntersectionCount s).[category] = 0) ->
  category ∉ intersectionCategories (step s tx) ->
  (encryptedIntersectionCount (step s tx)).[category] = 0.
Proof.
  intros IH. destruct (step_effect s tx); cbn; try exact IH.
  destruct (FHE_isInitialized (encryptedIntersectionCount s).[r1]) eqn:Hi.
  - intros Hnot. destruct (decide (r1 = category)) as [->|Hne].
    + rewrite (IH Hnot), isInitialized_zero_handle in Hi. discriminate.
    + rewrite mget_insert_ne by done. by apply IH.
  - intros Hnot. apply not_elem_of_app in Hnot as [Hnot Hr].
    rewrite mget_insert_ne; [by apply IH|].
    intros ->. apply Hr. by apply list_elem_of_singleton.
Qed.

Lemma unregistered_zero category s :
  reachable s ->
  category ∉ intersectionCategories s ->
  (encryptedIntersectionCount s).[category] = 0.
Proof.
  revert s.
  apply (reachable_ind' (fun s => category ∉ intersectionCategories s ->
                                  (encryptedIntersectionCount s).[category] = 0)).
  - intros _. cbn. by rewrite mget_empty.
  - intros s tx IH. by apply unregistered_step.
Qed.

(** C7. For a category that was never registered the getter does not
    revert: it returns the zero handle, which is not an initialized
    ciphertext, and changes nothing. "Category not found" is what
    requesting the decryption of that count reverts with. *)
Theorem getter_of_unregistered_category (ctx : Ctx) (category : string) (s : State) :
  reachable s ->
  category ∉ intersectionCategories s ->
  transact ctx (GetEncryptedIntersectionCount category) s = (Returned (RHandle 0), s) /\
  FHE_isInitialized 0 = false /\
  transact ctx (RequestIntersectionCountDecryption category) s
    = (Reverted CategoryNotFound, s).
Proof.
  intros Hreach Hnot. pose proof (unregistered_zero category s Hreach Hnot) as Hz.
  rewrite transact_getCount, transact_countRequest, Hz, isInitialized_zero_handle.
  done.
Qed.
End HistoryFacts.

(** ** Flags and plaintext fields *)

Section Flags.
Context {F : FHEVM}.


End Flags.

(** ** The contract run against the transparent library *)

Lemma tagged_mod (x : N) : (2 ^ 32 + x mod 2 ^ 32) mod 2 ^ 32 = x mod 2 ^ 32.
Proof.
  rewrite N.Div0.add_mod, N.Div0.mod_same, N.add_0_l.
  by rewrite !N.Div0.mod_mod.
Qed.

Lemma transparent_laws : FHEVMLaws transparent.
Proof.
  split; cbn -[N.pow N.modulo N.add]; unfold MOD_UINT32.
  - reflexivity.
  - intros v. apply negb_true_iff, N.eqb_neq.
    intros H. apply N.eq_add_0 in H as [H _]. discriminate.
  - intros a b. apply negb_true_iff, N.eqb_neq.
    intros H. apply N.eq_add_0 in H as [H _]. discriminate.
  - intros v. apply tagged_mod.
  - intros a b. rewrite N.Div0.add_mod, N.Div0.mod_mod.
    replace (2 ^ 33 mod 2 ^ 32) with 0 by reflexivity.
    rewrite N.add_0_l, N.Div0.mod_mod. apply N.Div0.add_mod.
Qed.

Section Scenarios.
#[local] Existing Instance transparent.

Lemma cubePayload_decodes :
  Abi.decode_string_array cubePayload = Some ["square"; "cube"]%string.
Proof. vm_compute. reflexivity. Qed.

Lemma attestation_accepted requestId cleartexts :
  FHE_checkSignatures requestId cleartexts (attestation requestId cleartexts) = true.
Proof. cbn -[attestation]. by apply bool_decide_eq_true_2. Qed.

(** *** Witnesses *)

Lemma second_callback_rejected_witness :
  transact alice (DecryptGeometry 0 cubePayload (attestation 0 cubePayload)) requestedTwice
    = (Returned RNone, decrypted 1 "square" "cube" requestedTwice) /\
  (decryptedGeometries (decrypted 1 "square" "cube" requestedTwice)).[1]
    = {| shape2D := "square"; shape3D := "cube"; isDecrypted := true |} /\
  transact bob (DecryptGeometry 1 cubePayload (attestation 1 cubePayload))
    (run [(bob, SubmitEncryptedGeometry 0x100000003 0x100000004);
          (alice, RequestGeometryDecryption 2)]
         (decrypted 1 "square" "cube" requestedTwice))
    = (Reverted AlreadyDecrypted,
       run [(bob, SubmitEncryptedGeometry 0x100000003 0x100000004);
            (alice, RequestGeometryDecryption 2)]
           (decrypted 1 "square" "cube" requestedTwice)).
Proof.
  apply (second_callback_rejected alice bob 0 1 1 cubePayload (attestation 0 cubePayload)
           cubePayload (attestation 1 cubePayload) "square" "cube" []
           [(bob, SubmitEncryptedGeometry 0x100000003 0x100000004);
            (alice, RequestGeometryDecryption 2)] requestedTwice).
  - vm_compute. split; [reflexivity | discriminate].
  - vm_compute. reflexivity.
  - vm_compute. reflexivity.
  - vm_compute. reflexivity.
  - vm_compute. reflexivity.
  - vm_compute. reflexivity.
  - vm_compute. reflexivity.
Defined.

Lemma proof_checked_before_any_write_witness :
  decryptGeometry alice 0 cubePayload [] requestedTwice
    = (inl (rejectedWith 0 requestedTwice), requestedTwice) /\
  transact alice (DecryptGeometry 0 cubePayload []) requestedTwice
    = (Reverted (rejectedWith 0 requestedTwice), requestedTwice).
Proof.
  apply (proof_checked_before_any_write alice 0 cubePayload [] requestedTwice).
  vm_compute. reflexivity.
Defined.


Lemma getter_of_unregistered_category_witness :
  transact alice (GetEncryptedIntersectionCount "sphere") countRequestedState
    = (Returned (RHandle 0), countRequestedState) /\
  FHE_isInitialized 0 = false /\
  transact alice (RequestIntersectionCountDecryption "sphere") countRequestedState
    = (Reverted CategoryNotFound, countRequestedState).
Proof.
  apply (getter_of_unregistered_category (L := transparent_laws) alice "sphere"
           countRequestedState).
  - eexists. reflexivity.
  - vm_compute. intros H. repeat (apply elem_of_cons in H as [H|H]; [discriminate|]).
    by apply elem_of_nil in H.
Defined.

Lemma submit_assigns_next_id_witness :
  transact alice (SubmitEncryptedGeometry 0x100000003 0x100000004) requestedTwice
    = (Returned RNone, submitted alice 0x100000003 0x100000004 requestedTwice) /\
  0 < geometryCount requestedTwice + 1 /\
  geometryCount (submitted alice 0x100000003 0x100000004 requestedTwice)
    = geometryCount requestedTwice + 1 /\
  (encryptedGeometries (submitted alice 0x100000003 0x100000004 requestedTwice)).[
      geometryCount requestedTwice + 1]
    = {| id := geometryCount requestedTwice + 1; encryptedShape2D := 0x100000003;
         encryptedShape3D := 0x100000004; timestamp := block_timestamp alice |} /\
  (decryptedGeometries (submitted alice 0x100000003 0x100000004 requestedTwice)).[
      geometryCount requestedTwice + 1]
    = {| shape2D := ""; shape3D := ""; isDecrypted := false |} /\
  events (submitted alice 0x100000003 0x100000004 requestedTwice)
    = GeometrySubmitted (geometryCount requestedTwice + 1) (block_timestamp alice)
        :: events requestedTwice /\
  forall txs,
    geometryCount requestedTwice + 1
      < geometryCount (run txs (submitted alice 0x100000003 0x100000004 requestedTwice)) + 1.
Proof.
  apply (submit_assigns_next_id alice 0x100000003 0x100000004 requestedTwice).
  vm_compute. reflexivity.
Defined.

(** *** Where the code departs from the stated claims *)

(** C3, refuted as stated: a callback with a rejected proof for a request id
    the table does not know reverts with "Invalid request", and one for a
    record already decrypted with "Already decrypted". *)
Lemma rejected_proof_other_errors :
  FHE_checkSignatures 7 cubePayload [] = false /\
  transact alice (DecryptGeometry 7 cubePayload []) requestedTwice
    = (Reverted InvalidRequest, requestedTwice) /\
  FHE_checkSignatures 0 cubePayload [] = false /\
  transact alice (DecryptGeometry 0 cubePayload []) countRequestedState
    = (Reverted AlreadyDecrypted, countRequestedState).
Proof. vm_compute. repeat split; reflexivity. Qed.

(** C5, refuted as stated: record 1 exists and is not decrypted, and the
    request for it does not go through: the owner of its ciphertexts has
    not allowed the contract on them, and the library refuses. *)
Lemma request_refused_for_existing_record :
  geometryCount notAllowedSubmitted = 1 /\
  encryptedGeometries notAllowedSubmitted !! 1
    = Some {| id := 1; encryptedShape2D := 0x300000007;
              encryptedShape3D := 0x300000009; timestamp := 1700000000 |} /\
  isDecrypted (decryptedGeometries notAllowedSubmitted).[1] = false /\
  transact alice (RequestGeometryDecryption 1) notAllowedSubmitted
    = (Reverted SenderNotAllowed, notAllowedSubmitted).
Proof. vm_compute. repeat split; reflexivity. Qed.

Lemma submissions_succ n :
  submissions (N.succ n)
    = submissions n ++ [(alice, SubmitEncryptedGeometry 0x100000007 0x100000009)].
Proof. unfold submissions. by rewrite N.peano_rect_succ. Qed.

Lemma submissions_count n :
  n <= MAX_UINT256 -> geometryCount (run (submissions n) initial) = n.
Proof.
  induction n as [|n IH] using N.peano_ind; intros Hn; [done|].
  apply N.le_succ_l in Hn.
  rewrite submissions_succ, run_app. cbn [run fold_left].
  rewrite step_submit by (rewrite IH by lia; lia).
  cbn. rewrite IH by lia. lia.
Qed.

(** C6, refuted as stated: the first submission assigns id 1 and returns no
    data, the id is in the event; and after 2^256 - 1 submissions the next
    call assigns no id, it reverts. *)
Lemma submit_returns_nothing :
  (outcome alice (SubmitEncryptedGeometry 0x100000007 0x100000009) initial
     = Returned RNone /\
   outcome alice (SubmitEncryptedGeometry 0x100000007 0x100000009) initial
     <> Returned (RUint 1) /\
   geometryCount (step initial (alice, SubmitEncryptedGeometry 0x100000007 0x100000009))
     = 1 /\
   events (step initial (alice, SubmitEncryptedGeometry 0x100000007 0x100000009))
     = [GeometrySubmitted 1 1700000000]) /\
  outcome bob (SubmitEncryptedGeometry 0x100000003 0x100000004)
          (run (submissions MAX_UINT256) initial)
    = Reverted (Panic 0x11).
Proof.
  split.
  - vm_compute. repeat split; (reflexivity || discriminate).
  - pose proof (submissions_count MAX_UINT256 (N.le_refl _)) as Hcount.
    revert Hcount. generalize (run (submissions MAX_UINT256) initial).
    intros s Hcount. unfold outcome. by rewrite transact_submit, Hcount.
Qed.

(** C7, refuted as stated: "sphere" was never registered, and the getter
    returns a handle. *)
Lemma getter_returns_for_unregistered :
  intersectionCategories countRequestedState = ["cube"%string] /\
  transact alice (GetEncryptedIntersectionCount "sphere") countRequestedState
    = (Returned (RHandle 0), countRequestedState).
Proof. vm_compute. repeat split; reflexivity. Qed.


(** *** The scenarios of the specification *)

(** Two records whose callbacks carry "cube": the first creates the counter,
    which reads 1; the second is refused by the library, the contract not
    being allowed on the counter it stored, and record 2 stays undecrypted.
    The count of "cube" cannot be requested for the same reason, and the
    count of a category never created is not found. *)
Example two_records_same_category :
  FHE_cleartext (encryptedIntersectionCount (run (oneRound 0) initial)).["cube"] = 1 /\
  outcome bob (DecryptGeometry 1 cubePayload (attestation 1 cubePayload))
          (run (oneRound 0 ++ [(alice, SubmitEncryptedGeometry 0x100000007 0x100000009);
                               (alice, RequestGeometryDecryption 2)]) initial)
    = Reverted ACLNotAllowed /\
  isDecrypted (decryptedGeometries (run (oneRound 0 ++ oneRound 1) initial)).[2] = false /\
  intersectionCategories (run (oneRound 0 ++ oneRound 1) initial) = ["cube"%string] /\
  outcome alice (RequestIntersectionCountDecryption "cube")
          (run (oneRound 0 ++ oneRound 1) initial) = Reverted SenderNotAllowed /\
  outcome alice (RequestIntersectionCountDecryption "sphere")
          (run (oneRound 0 ++ oneRound 1) initial) = Reverted CategoryNotFound.
Proof. vm_compute. repeat split; reflexivity. Qed.

(** Two records with different 3D shapes: both callbacks go through, each
    into a counter of its own. *)
Example two_records_two_categories :
  intersectionCategories (run (oneRound 0 ++ sphereRound) initial)
    = ["cube"; "sphere"]%string /\
  FHE_cleartext (encryptedIntersectionCount (run (oneRound 0 ++ sphereRound) initial)).["cube"]
    = 1 /\
  FHE_cleartext
    (encryptedIntersectionCount (run (oneRound 0 ++ sphereRound) initial)).["sphere"] = 1.
Proof. vm_compute. repeat split; reflexivity. Qed.

(** A request is accepted before the callback lands and rejected after. *)
Example request_before_and_after_callback :
  outcome bob (RequestGeometryDecryption 1) requestedTwice = Returned RNone /\
  outcome bob (RequestGeometryDecryption 1)
          (step requestedTwice
                (alice, DecryptGeometry 0 cubePayload (attestation 0 cubePayload)))
    = Reverted AlreadyDecrypted.
Proof. vm_compute. repeat split; reflexivity. Qed.
End Scenarios.

(** * Further properties of the contract *)

(** ** The category lookup *)

Lemma scanCategories_spec hash categories :
  match scanCategories hash categories with
  | Some c =>
      exists before after,
        categories = before ++ c :: after /\
        categoryHash c = hash /\
        Forall (fun c' => categoryHash c' <> hash) before
  | None => Forall (fun c' => categoryHash c' <> hash) categories
  end.
Proof.
  induction categories as [|c rest IH]; cbn; [constructor|].
  fold (categoryHash c). destruct (categoryHash c =? hash) eqn:E.
  - apply N.eqb_eq in E. exists [], rest. auto.
  - apply N.eqb_neq in E. destruct (scanCategories hash rest) as [c'|].
    + destruct IH as (before & after & -> & Hh & Hb).
      exists (c :: before), after. auto.
    + by constructor.
Qed.

Lemma scanCategories_member c categories :
  c ∈ categories -> is_Some (scanCategories (categoryHash c) categories).
Proof.
  intros Hin. pose proof (scanCategories_spec (categoryHash c) categories) as H.
  destruct (scanCategories _ _); [eauto|].
  rewrite Forall_forall in H. by destruct (H c Hin).
Qed.

(** X1. [getCategoryFromHash] changes nothing and returns the first listed
    category whose hash is the one asked for; it reverts with "Category not
    found" exactly when no listed category has that hash. *)
Theorem getCategoryFromHash_first_match (hash : uint256) (s : State) :
  match getCategoryFromHash hash s with
  | (inr c, s') =>
      s' = s /\
      exists before after,
        intersectionCategories s = before ++ c :: after /\
        categoryHash c = hash /\
        Forall (fun c' => categoryHash c' <> hash) before
  | (inl e, s') =>
      s' = s /\ e = CategoryNotFound /\
      Forall (fun c' => categoryHash c' <> hash) (intersectionCategories s)
  end.
Proof.
  unfold getCategoryFromHash, mbind, M_bind, gets. cbn.
  pose proof (scanCategories_spec hash (intersectionCategories s)) as H.
  destruct (scanCategories _ _); cbn; auto.
Qed.

Section Invariants.
Context {F : FHEVM}.

Lemma events_grow s tx e : e ∈ events s -> e ∈ events (step s tx).
Proof.
  intros He. destruct (step_effect s tx); cbn; try done; by apply elem_of_cons; right.
Qed.

Lemma categories_grow_step s tx :
  intersectionCategories s `prefix_of` intersectionCategories (step s tx).
Proof.
  destruct (step_effect s tx); cbn; try done.
  destruct (FHE_isInitialized _); [done|]. by apply prefix_app_r.
Qed.

Lemma zeroInv_step s tx : zeroInv s -> zeroInv (step s tx).
Proof.
  intros [He Hd]. destruct (step_effect s tx); try done; split; cbn; try done.
  - rewrite lookup_insert_ne; [done | lia].
  - rewrite lookup_insert_ne; [done | lia].
  - rewrite lookup_insert_ne; [done | congruence].
Qed.

Lemma recordsInv_step s tx : recordsInv s -> recordsInv (step s tx).
Proof.
  intros [Hmax Hrec]. destruct (step_effect s tx); try done.
  split; [cbn; lia|]. intros g. cbn.
  destruct (decide (geometryCount s + 1 = g)) as [<-|Hne].
  - rewrite lookup_insert_eq. cbn. split; [lia | done].
  - rewrite lookup_insert_ne by done. specialize (Hrec g).
    destruct (encryptedGeometries s !! g); [split; [lia | tauto] | lia].
Qed.

Lemma tableInv_step s tx : tableInv s -> tableInv (step s tx).
Proof.
  intros Htab. destruct (step_effect s tx); try done; intros rid v; cbn.
  - destruct (decide (geometryRequestId geometryId s = rid)) as [<-|Hne].
    + intros _. apply elem_of_cons. by left.
    + rewrite lookup_insert_ne by done. intros Hin. apply elem_of_cons. right. eauto.
  - destruct (decide (countRequestId category s = rid)) as [<-|Hne].
    + intros _. apply elem_of_cons. by left.
    + rewrite lookup_insert_ne by done. intros Hin. apply elem_of_cons. right. eauto.
Qed.

(** An encrypted record is never written again. *)
Lemma encrypted_kept_step s tx g :
  g <= geometryCount s ->
  encryptedGeometries (step s tx) !! g = encryptedGeometries s !! g.
Proof.
  intros Hg. destruct (step_effect s tx); cbn; try done.
  rewrite lookup_insert_ne; [done | lia].
Qed.

Lemma encrypted_kept_run txs s g :
  g <= geometryCount s ->
  encryptedGeometries (run txs s) !! g = encryptedGeometries s !! g.
Proof.
  revert s. induction txs as [|tx txs IH]; intros s Hg; [done|].
  rewrite run_cons, IH; [by apply encrypted_kept_step|].
  pose proof (geometryCount_step s tx). lia.
Qed.

Lemma decrypted_kept_step s tx g :
  g <= geometryCount s ->
  isDecrypted (decryptedGeometries s).[g] = true ->
  (decryptedGeometries (step s tx)).[g] = (decryptedGeometries s).[g].
Proof.
  intros Hg Ht. destruct (step_effect s tx); cbn; try done.
  - rewrite mget_insert_ne; [done | lia].
  - rewrite mget_insert_ne; [done | congruence].
Qed.

Lemma submittedIds_step s tx :
  submittedIds (events s) = idsDownFrom (N.to_nat (geometryCount s)) ->
  submittedIds (events (step s tx))
    = idsDownFrom (N.to_nat (geometryCount (step s tx))).
Proof.
  intros IH. destruct (step_effect s tx); cbn -[submittedIds idsDownFrom]; try done.
  change (submittedIds (GeometrySubmitted (geometryCount s + 1) (block_timestamp ctx)
                          :: events s))
    with (geometryCount s + 1 :: submittedIds (events s)).
  rewrite IH. rewrite N.add_1_r, N2Nat.inj_succ. cbn [idsDownFrom].
  by rewrite <- N2Nat.inj_succ, N2Nat.id.
Qed.
End Invariants.

Section LawInvariants.
Context {F : FHEVM} {L : FHEVMLaws F}.

Lemma listedInv_initial : listedInv initial.
Proof.
  intros c. cbn. rewrite mget_empty. unfold sol_default, uint_default.
  rewrite isInitialized_zero_handle. split; [done|]. intros Hin. by apply elem_of_nil in Hin.
Qed.

Lemma listedInv_step s tx : listedInv s -> listedInv (step s tx).
Proof.
  intros IH. destruct (step_effect s tx); try done. intros c. cbn.
  destruct (decide (r1 = c)) as [->|Hne].
  - rewrite mget_insert_eq, isInitialized_add. split; [intros _|done].
    destruct (FHE_isInitialized _) eqn:Hi.
    + by apply IH.
    + apply elem_of_app. right. by apply list_elem_of_singleton.
  - rewrite mget_insert_ne by done. rewrite (IH c).
    destruct (FHE_isInitialized _); [done|].
    rewrite elem_of_app, list_elem_of_singleton.
    split; [by left | intros [Hin|Hin]; [done | congruence]].
Qed.

Lemma listedInv_reachable s : reachable s -> listedInv s.
Proof. apply reachable_ind'; [apply listedInv_initial | apply listedInv_step]. Qed.

Lemma decryptedInv_step s tx : listedInv s -> decryptedInv s -> decryptedInv (step s tx).
Proof.
  intros Hl IH. destruct (step_effect s tx); try done; intros g; cbn.
  - destruct (decide (geometryCount s + 1 = g)) as [<-|Hne].
    + by rewrite mget_insert_eq.
    + rewrite mget_insert_ne by done. intros Hg. destruct (IH g Hg).
      split; [by apply elem_of_cons; right | done].
  - intros Hg. destruct (IH g Hg). split; [by apply elem_of_cons; right | done].
  - destruct (decide ((requestToGeometryId s).[requestId] = g)) as [<-|Hne].
    + rewrite mget_insert_eq. cbn. intros _. split; [by apply elem_of_cons; left|].
      destruct (FHE_isInitialized _) eqn:Hi.
      * by apply Hl.
      * apply elem_of_app. right. by apply list_elem_of_singleton.
    + rewrite mget_insert_ne by done. intros Hg. destruct (IH g Hg).
      split; [by apply elem_of_cons; right|].
      destruct (FHE_isInitialized _); [done|]. apply elem_of_app. by left.
Qed.

Lemma decryptedInv_reachable s : reachable s -> decryptedInv s.
Proof.
  intros Hr. cut (listedInv s /\ decryptedInv s); [tauto|]. revert s Hr.
  apply (reachable_ind' (fun s => listedInv s /\ decryptedInv s)).
  - split; [apply listedInv_initial|]. intros g. cbn. rewrite mget_empty. done.
  - intros s tx [Hl Hd]. split; [by apply listedInv_step | by apply decryptedInv_step].
Qed.

(** X2. A geometry callback that has passed its guards, with an accepted
    proof and a payload of at least two strings, ends in the library's
    addition: it goes through when the library allows the contract on the
    counter it adds to and on the encrypted one, and reverts otherwise, at
    a point where the plaintext, the flag and a new category are already
    written, all of which the revert undoes. Where the category has a stored
    counter and the access-control list is the one of the deployed
    contract, which never asks to be allowed on what it stores, the callback
    is refused. *)
Theorem fold_needs_permission
    (ctx : Ctx) (requestId : uint256) (cleartexts proof : bytes)
    (r0 r1 : string) (rest : list string) (s : State) :
  (requestToGeometryId s).[requestId] <> 0 ->
  isDecrypted (decryptedGeometries s).[(requestToGeometryId s).[requestId]] = false ->
  FHE_checkSignatures requestId cleartexts proof = true ->
  Abi.decode_string_array cleartexts = Some (r0 :: r1 :: rest) ->
  decryptGeometry ctx requestId cleartexts proof s
    = (if foldAllowed ctx r1 s
       then (inr tt, decrypted (requestToGeometryId s).[requestId] r0 r1 s)
       else (inl ACLNotAllowed,
             foldRefused (requestToGeometryId s).[requestId] r0 r1 s)) /\
  transact ctx (DecryptGeometry requestId cleartexts proof) s
    = (if foldAllowed ctx r1 s
       then (Returned RNone, decrypted (requestToGeometryId s).[requestId] r0 r1 s)
       else (Reverted ACLNotAllowed, s)) /\
  (aclAsDeployed ctx s ->
   FHE_isInitialized (encryptedIntersectionCount s).[r1] = true ->
   foldAllowed ctx r1 s = false).
Proof.
  intros Hne Hfresh Hok Hdec. apply N.eqb_neq in Hne. split; [|split].
  - rewrite decryptGeometry_eq. cbn. by rewrite Hne, Hfresh, Hok, Hdec.
  - rewrite transact_decryptGeometry. cbn. by rewrite Hne, Hfresh, Hok, Hdec.
  - intros [_ Hacl] Hi. unfold foldAllowed, foldOperand. rewrite Hi.
    by rewrite (Hacl r1 Hi).
Qed.

(** X3. In a reachable state the listed categories are exactly those whose
    counter is initialized. A count request reverts with "Category not
    found" for a category that is not listed; for a listed one it is the
    library that decides: the request is sent and registered when the
    contract is allowed on the counter, and reverts otherwise. *)
Theorem count_request_iff_listed (ctx : Ctx) (category : string) (s : State) :
  reachable s ->
  FHE_isInitialized (encryptedIntersectionCount s).[category]
    = bool_decide (category ∈ intersectionCategories s) /\
  transact ctx (RequestIntersectionCountDecryption category) s
    = (if bool_decide (category ∈ intersectionCategories s)
       then if countRequestAllowed ctx category s
            then (Returned RNone, countRequested category s)
            else (Reverted SenderNotAllowed, s)
       else (Reverted CategoryNotFound, s)).
Proof.
  intros Hr. pose proof (listedInv_reachable s Hr category) as Hl.
  assert (FHE_isInitialized (encryptedIntersectionCount s).[category]
          = bool_decide (category ∈ intersectionCategories s)) as Heq.
  { case_bool_decide as Hin; [by apply Hl|].
    destruct (FHE_isInitialized _) eqn:E; [|done]. exfalso. by apply Hin, Hl. }
  split; [done|]. by rewrite transact_countRequest, Heq.
Qed.

(** X4. In a reachable state every decrypted record has its
    GeometryDecrypted event in the log, and the 3D shape stored for it is a
    listed category with an initialized counter. *)
Theorem decrypted_record_is_logged_and_counted (g : uint256) (s : State) :
  reachable s ->
  isDecrypted (decryptedGeometries s).[g] = true ->
  GeometryDecrypted g ∈ events s /\
  shape3D (decryptedGeometries s).[g] ∈ intersectionCategories s /\
  FHE_isInitialized (encryptedIntersectionCount s).[shape3D (decryptedGeometries s).[g]]
    = true.
Proof.
  intros Hr Hg. destruct (decryptedInv_reachable s Hr g Hg) as [He Hc].
  split; [done|]. split; [done|]. by apply (listedInv_reachable s Hr).
Qed.

Lemma initialized_kept_step s tx c :
  FHE_isInitialized (encryptedIntersectionCount s).[c] = true ->
  FHE_isInitialized (encryptedIntersectionCount (step s tx)).[c] = true.
Proof.
  intros Hi. destruct (step_effect s tx); cbn; try done.
  destruct (decide (r1 = c)) as [->|Hne].
  - rewrite mget_insert_eq. apply isInitialized_add.
  - by rewrite mget_insert_ne.
Qed.

(** X5. The category list is append-only and a counter, once initialized,
    stays initialized: along every history the list of the start state is
    a prefix of the list of the end state. *)
Theorem category_registry_append_only (txs : list (Ctx * Call)) (s : State) :
  intersectionCategories s `prefix_of` intersectionCategories (run txs s) /\
  forall c, FHE_isInitialized (encryptedIntersectionCount s).[c] = true ->
            FHE_isInitialized (encryptedIntersectionCount (run txs s)).[c] = true.
Proof.
  revert s. induction txs as [|tx txs IH]; intros s; [done|].
  rewrite run_cons. destruct (IH (step s tx)) as [Hp Hi]. split.
  - etrans; [apply categories_grow_step | exact Hp].
  - intros c Hc. by apply Hi, initialized_kept_step.
Qed.
End LawInvariants.

Section MoreProperties.
Context {F : FHEVM}.

(** X6. A request for a non-zero id whose flag is clear, which the library
    lets through, followed by the callback for the request id it was given,
    with an accepted proof, a payload that decodes to at least two strings
    and an addition the library lets through, stores the first two strings:
    the getter then returns them with the flag set. *)
Theorem request_callback_getter
    (ctx1 ctx2 ctx3 : Ctx) (g : uint256) (cleartexts proof : bytes)
    (r0 r1 : string) (rest : list string) (s : State) :
  g <> 0 ->
  isDecrypted (decryptedGeometries s).[g] = false ->
  FHE_checkSignatures (geometryRequestId g s) cleartexts proof = true ->
  Abi.decode_string_array cleartexts = Some (r0 :: r1 :: rest) ->
  requestAllowed ctx1 g s = true ->
  foldAllowed ctx2 r1 (requested g s) = true ->
  transact ctx1 (RequestGeometryDecryption g) s = (Returned RNone, requested g s) /\
  transact ctx2 (DecryptGeometry (geometryRequestId g s) cleartexts proof) (requested g s)
    = (Returned RNone, decrypted g r0 r1 (requested g s)) /\
  transact ctx3 (GetDecryptedGeometry g) (decrypted g r0 r1 (requested g s))
    = (Returned (RDecrypted r0 r1 true), decrypted g r0 r1 (requested g s)).
Proof.
  intros Hne Hfresh Hok Hdec Hreq Hfold. split; [|split].
  - by rewrite transact_request, Hfresh, Hreq.
  - rewrite transact_decryptGeometry. cbn -[foldAllowed]. rewrite mget_insert_eq.
    apply N.eqb_neq in Hne. by rewrite Hne, Hfresh, Hok, Hdec, Hfold.
  - rewrite transact_getDecrypted. cbn. by rewrite mget_insert_eq.
Qed.

Lemma zeroInv_reachable s : reachable s -> zeroInv s.
Proof. apply reachable_ind'; [done | apply zeroInv_step]. Qed.

(** X7. Id 0 is never a record: in every reachable state nothing is stored
    under it and its getter returns two empty strings and a clear flag. A
    decryption request for it asks the library to release the zero handle,
    twice, and reverts when the access-control list refuses that handle.
    No callback is ever applied to id 0: for a request id the table holds 0
    for, the geometry callback reverts with "Invalid request" whatever it
    carries. *)
Theorem zero_id_is_never_a_record
    (ctx ctx' : Ctx) (cleartexts proof : bytes) (s : State) :
  reachable s ->
  encryptedGeometries s !! 0 = None /\
  transact ctx (GetDecryptedGeometry 0) s = (Returned (RDecrypted "" "" false), s) /\
  geometryHandles 0 s = [FHE_toBytes32 0; FHE_toBytes32 0] /\
  transact ctx (RequestGeometryDecryption 0) s
    = (if isAllowed ctx (FHE_toBytes32 0)
       then (Returned RNone, requested 0 s)
       else (Reverted SenderNotAllowed, s)) /\
  forall requestId,
    (requestToGeometryId s).[requestId] = 0 ->
    transact ctx' (DecryptGeometry requestId cleartexts proof) s
      = (Reverted InvalidRequest, s).
Proof.
  intros Hr. destruct (zeroInv_reachable s Hr) as [He Hd].
  assert (Hz : (decryptedGeometries s).[0] = sol_default) by (unfold mget; by rewrite Hd).
  assert (Hh : geometryHandles 0 s = [FHE_toBytes32 0; FHE_toBytes32 0]).
  { unfold geometryHandles, mget. by rewrite He. }
  split; [done|]. split; [|split; [done|split]].
  - rewrite transact_getDecrypted, Hz. done.
  - rewrite transact_request, Hz. unfold requestAllowed. rewrite Hh. cbn.
    by destruct (isAllowed ctx (FHE_toBytes32 0)).
  - intros requestId Hzero. rewrite transact_decryptGeometry. cbn. by rewrite Hzero.
Qed.

Lemma recordsInv_reachable s : reachable s -> recordsInv s.
Proof.
  apply reachable_ind'; [|apply recordsInv_step].
  split; [done|]. intros g. cbn. rewrite lookup_empty. lia.
Qed.

(** X8. In every reachable state the counter is within [uint256] and the
    encrypted records are exactly those of the ids 1 to [geometryCount],
    each carrying its own id. *)
Theorem records_are_the_ids_up_to_count (g : uint256) (s : State) :
  reachable s ->
  geometryCount s <= MAX_UINT256 /\
  match encryptedGeometries s !! g with
  | Some r => 0 < g <= geometryCount s /\ id r = g
  | None => g = 0 \/ geometryCount s < g
  end.
Proof.
  intros Hr. destruct (recordsInv_reachable s Hr) as [Hmax Hrec].
  split; [exact Hmax | apply Hrec].
Qed.

(** X9. An encrypted record is immutable: along every history, what is
    stored under an id up to [geometryCount] stays what it was. *)
Theorem encrypted_record_is_immutable (txs : list (Ctx * Call)) (g : uint256) (s : State) :
  g <= geometryCount s ->
  encryptedGeometries (run txs s) !! g = encryptedGeometries s !! g.
Proof.
  revert s. induction txs as [|tx txs IH]; intros s Hg; [done|].
  rewrite run_cons, IH.
  - destruct (step_effect s tx); cbn; try done.
    rewrite lookup_insert_ne; [done | lia].
  - pose proof (geometryCount_step s tx). lia.
Qed.

(** X10. The plaintext of a decrypted record is final: along every history,
    the strings and the flag stored for a submitted record whose flag is
    set stay what they were. *)
Theorem decrypted_record_is_final (txs : list (Ctx * Call)) (g : uint256) (s : State) :
  g <= geometryCount s ->
  isDecrypted (decryptedGeometries s).[g] = true ->
  (decryptedGeometries (run txs s)).[g] = (decryptedGeometries s).[g].
Proof.
  revert s. induction txs as [|tx txs IH]; intros s Hg Ht; [done|].
  rewrite run_cons, IH.
  - by apply decrypted_kept_step.
  - pose proof (geometryCount_step s tx). lia.
  - by rewrite decrypted_kept_step.
Qed.

(** X11. In every reachable state the GeometrySubmitted events of the log
    are those of the ids [geometryCount] down to 1, newest first: one
    event per assigned id, none missing, none repeated. *)
Theorem submitted_events_match_counter (s : State) :
  reachable s ->
  submittedIds (events s) = idsDownFrom (N.to_nat (geometryCount s)).
Proof. revert s. apply reachable_ind'; [done | apply submittedIds_step]. Qed.

Lemma tableInv_reachable s : reachable s -> tableInv s.
Proof.
  apply reachable_ind'; [|apply tableInv_step].
  intros rid v. cbn. by rewrite lookup_empty.
Qed.

(** X12. In every reachable state a geometry callback that goes through
    carries a request id that was handed out for a request sent to the
    oracle: for any other request id the callback reverts with "Invalid
    request". *)
Theorem callback_needs_a_sent_request
    (ctx : Ctx) (requestId : uint256) (cleartexts proof : bytes) (s : State) :
  reachable s ->
  requestId ∉ or_requestId <$> oracleRequests s ->
  transact ctx (DecryptGeometry requestId cleartexts proof) s
    = (Reverted InvalidRequest, s).
Proof.
  intros Hr Hnot. rewrite transact_decryptGeometry. cbn.
  assert ((requestToGeometryId s).[requestId] = 0) as ->; [|done].
  unfold mget. destruct (requestToGeometryId s !! requestId) eqn:E; [|done].
  exfalso. apply Hnot. by eapply (tableInv_reachable s Hr).
Qed.

(** X13. A callback with an accepted proof whose payload decodes to a single
    string has written [shape2D] by the time the read of [results[1]]
    panics; the transaction reverts with Panic(0x32) and the write is
    undone. *)
Theorem single_string_payload_is_rolled_back
    (ctx : Ctx) (requestId : uint256) (cleartexts proof : bytes) (r0 : string)
    (s : State) :
  (requestToGeometryId s).[requestId] <> 0 ->
  isDecrypted (decryptedGeometries s).[(requestToGeometryId s).[requestId]] = false ->
  FHE_checkSignatures requestId cleartexts proof = true ->
  Abi.decode_string_array cleartexts = Some [r0] ->
  decryptGeometry ctx requestId cleartexts proof s
    = (inl (Panic 0x32), halfWritten (requestToGeometryId s).[requestId] r0 s) /\
  shape2D (decryptedGeometries
             (halfWritten (requestToGeometryId s).[requestId] r0 s)).[
             (requestToGeometryId s).[requestId]] = r0 /\
  transact ctx (DecryptGeometry requestId cleartexts proof) s
    = (Reverted (Panic 0x32), s).
Proof.
  intros Hne Hfresh Hok Hdec. apply N.eqb_neq in Hne.
  rewrite decryptGeometry_eq, transact_decryptGeometry. cbn.
  rewrite Hne, Hfresh, Hok, Hdec. cbn. by rewrite mget_insert_eq.
Qed.

(** X14. A request for a submitted record asks the library for the two
    ciphertext handles given at submission, whatever happened in between:
    when the contract is allowed on both, the request goes to the oracle
    with these handles and the selector of [decryptGeometry], and the
    request id is registered for the record. *)
Theorem request_sends_the_submitted_ciphertexts
    (ctx ctx' : Ctx) (e2 e3 : euint32) (txs : list (Ctx * Call)) (s : State) :
  geometryCount s < MAX_UINT256 ->
  isDecrypted (decryptedGeometries (run txs (submitted ctx e2 e3 s))).[geometryCount s + 1]
    = false ->
  isAllowed ctx' (FHE_toBytes32 e2) = true ->
  isAllowed ctx' (FHE_toBytes32 e3) = true ->
  geometryHandles (geometryCount s + 1) (run txs (submitted ctx e2 e3 s))
    = [FHE_toBytes32 e2; FHE_toBytes32 e3] /\
  transact ctx' (RequestGeometryDecryption (geometryCount s + 1))
           (run txs (submitted ctx e2 e3 s))
    = (Returned RNone,
       requested (geometryCount s + 1) (run txs (submitted ctx e2 e3 s))) /\
  or_handles <$> head (oracleRequests
      (requested (geometryCount s + 1) (run txs (submitted ctx e2 e3 s))))
    = Some [FHE_toBytes32 e2; FHE_toBytes32 e3] /\
  or_selector <$> head (oracleRequests
      (requested (geometryCount s + 1) (run txs (submitted ctx e2 e3 s))))
    = Some decryptGeometry_selector /\
  (requestToGeometryId
     (requested (geometryCount s + 1) (run txs (submitted ctx e2 e3 s)))).[
     geometryRequestId (geometryCount s + 1) (run txs (submitted ctx e2 e3 s))]
    = geometryCount s + 1.
Proof.
  intros Hroom Hfresh H2 H3.
  assert (Hh : geometryHandles (geometryCount s + 1) (run txs (submitted ctx e2 e3 s))
               = [FHE_toBytes32 e2; FHE_toBytes32 e3]).
  { unfold geometryHandles, mget.
    rewrite (encrypted_kept_run txs (submitted ctx e2 e3 s)) by (cbn; lia).
    cbn. by rewrite lookup_insert_eq. }
  split; [exact Hh|]. split.
  { rewrite transact_request, Hfresh. unfold requestAllowed. rewrite Hh. cbn.
    by rewrite H2, H3. }
  split; [|split; [done | cbn; by rewrite mget_insert_eq]].
  cbn. by rewrite Hh.
Qed.

Lemma appliesTo_flag g s tx :
  appliesTo g s tx = true ->
  isDecrypted (decryptedGeometries s).[g] = false /\
  isDecrypted (decryptedGeometries (step s tx)).[g] = true.
Proof.
  destruct tx as [ctx c]. unfold appliesTo, outcome, step. cbn [fst snd].
  destruct c; try done. rewrite transact_decryptGeometry. cbn.
  destruct ((requestToGeometryId s).[requestId] =? 0); [done|].
  destruct (isDecrypted _) eqn:Hd; [done|].
  destruct (FHE_checkSignatures _ _ _); [|done]. cbn.
  destruct (Abi.decode_string_array _) as [[|r0 [|r1 rest]]|]; try done.
  destruct (foldAllowed ctx r1 s); [|done].
  cbn. intros E%N.eqb_eq. rewrite <- E. split; [done|]. by rewrite mget_insert_eq.
Qed.

(** X15. A submitted record is folded into a counter at most once: along
    every history, at most one geometry callback goes through for request
    ids standing for the record, and none if its flag is already set. *)
Theorem record_is_folded_at_most_once (g : uint256) (txs : list (Ctx * Call)) (s : State) :
  g <= geometryCount s ->
  callbacksFor g txs s <= (if isDecrypted (decryptedGeometries s).[g] then 0 else 1).
Proof.
  revert s. induction txs as [|tx txs IH]; intros s Hg.
  - cbn. destruct (isDecrypted _); lia.
  - cbn [callbacksFor].
    assert (Hg' : g <= geometryCount (step s tx))
      by (pose proof (geometryCount_step s tx); lia).
    specialize (IH (step s tx) Hg').
    destruct (appliesTo g s tx) eqn:Ha.
    + destruct (appliesTo_flag g s tx Ha) as [H0 H1]. rewrite H0. rewrite H1 in IH. lia.
    + destruct (isDecrypted (decryptedGeometries s).[g]) eqn:Hd.
      * rewrite (isDecrypted_kept_step s tx g Hd) in IH by (by left). lia.
      * destruct (isDecrypted (decryptedGeometries (step s tx)).[g]); lia.
Qed.
End MoreProperties.

(** ** ABI words *)

Lemma be_word_acc (bs : list N) (a : N) :
  fold_left (fun acc b => acc * 256 + b) bs a
    = a * 256 ^ N.of_nat (length bs) + Keccak.be_word bs.
Proof.
  unfold Keccak.be_word. revert a. induction bs as [|b bs IH]; intros a.
  - cbn. lia.
  - cbn [fold_left length]. rewrite IH, (IH (0 * 256 + b)).
    rewrite Nat2N.inj_succ, N.pow_succ_r'. lia.
Qed.

Lemma be_word_cons (b : N) (bs : list N) :
  Keccak.be_word (b :: bs) = b * 256 ^ N.of_nat (length bs) + Keccak.be_word bs.
Proof. unfold Keccak.be_word at 1. cbn [fold_left]. by rewrite be_word_acc. Qed.

(** The big-endian bytes of [w], [n] of them. *)
Lemma be_word_digits (w : N) (n : nat) :
  Keccak.be_word
    (map (fun i => N.land (N.shiftr w (8 * (N.of_nat n - 1 - N.of_nat i))) 0xff) (seq 0 n))
    = w mod 256 ^ N.of_nat n.
Proof.
  induction n as [|n IH].
  - cbn. by rewrite N.mod_1_r.
  - rewrite <- cons_seq. cbn [map]. rewrite be_word_cons.
    rewrite length_map, length_seq.
    rewrite <- seq_shift, map_map.
    erewrite map_ext; [rewrite IH|].
    2:{ intros i. cbn beta. f_equal. f_equal. lia. }
    replace (8 * (N.of_nat (S n) - 1 - N.of_nat 0)) with (8 * N.of_nat n) by lia.
    change 255 with (N.ones 8). rewrite N.land_ones, N.shiftr_div_pow2.
    replace (2 ^ (8 * N.of_nat n)) with (256 ^ N.of_nat n)
      by (change 256 with (2 ^ 8); by rewrite <- N.pow_mul_r).
    rewrite Nat2N.inj_succ, N.pow_succ_r'.
    rewrite (N.mul_comm 256), N.Div0.mod_mul_r. change (2 ^ 8) with 256. lia.
Qed.

Lemma to_N_byte_of (x : N) : x < 256 -> Byte.to_N (Abi.byte_of x) = x.
Proof.
  intros Hx. unfold Abi.byte_of.
  destruct (Byte.of_N x) as [b|] eqn:E.
  - cbn. by apply Byte.to_of_N.
  - apply Byte.of_N_None_iff in E. lia.
Qed.

Lemma be_bytes32_length (w : N) : length (Abi.be_bytes32 w) = 32%nat.
Proof. unfold Abi.be_bytes32. by rewrite length_map, length_seq. Qed.

Lemma be_bytes32_word (w : N) :
  Keccak.be_word (map Byte.to_N (Abi.be_bytes32 w)) = w mod 2 ^ 256.
Proof.
  unfold Abi.be_bytes32. rewrite map_map.
  erewrite map_ext.
  - rewrite (be_word_digits w 32). reflexivity.
  - intros i. cbn beta. rewrite to_N_byte_of.
    + f_equal.
    + change 255 with (N.ones 8). rewrite N.land_ones. by apply N.mod_lt.
Qed.

Lemma word_at_app (pre post : list byte) (w : N) :
  w < 2 ^ 256 ->
  Abi.word_at (pre ++ Abi.be_bytes32 w ++ post) (N.of_nat (length pre)) = Some w.
Proof.
  intros Hw. unfold Abi.word_at.
  rewrite !length_app, be_bytes32_length.
  destruct (N.leb_spec (N.of_nat (length pre) + 32)
              (N.of_nat (length pre + (32 + length post)))) as [_|Hlt]; [|lia].
  rewrite Nat2N.id, drop_app_length.
  rewrite <- (be_bytes32_length w) at 1. rewrite take_app_length.
  rewrite be_bytes32_word. by rewrite N.mod_small.
Qed.

Lemma slice_app (pre mid post : list byte) :
  Abi.slice (pre ++ mid ++ post) (N.of_nat (length pre)) (N.of_nat (length mid)) = Some mid.
Proof.
  unfold Abi.slice. rewrite !length_app.
  destruct (N.leb_spec (N.of_nat (length pre) + N.of_nat (length mid))
              (N.of_nat (length pre + (length mid + length post)))) as [_|Hlt]; [|lia].
  by rewrite !Nat2N.id, drop_app_length, take_app_length.
Qed.

Lemma decode_string_app (pre post : list byte) (x : string) :
  N.of_nat (length (list_byte_of_string x)) <= MAX_UINT64 ->
  Abi.decode_string (pre ++ Abi.encode_string x ++ post) (N.of_nat (length pre)) = Some x.
Proof.
  intros Hlen. unfold Abi.decode_string, Abi.encode_string, Abi.pad32.
  set (b := list_byte_of_string x) in *.
  rewrite <- !app_assoc. rewrite word_at_app.
  2:{ eapply N.le_lt_trans; [exact Hlen|]. by vm_compute. }
  cbn -[Abi.be_bytes32 Abi.slice N.ltb MAX_UINT64 app].
  destruct (N.ltb_spec MAX_UINT64 (N.of_nat (length b))) as [Hgt|_]; [lia|].
  replace (N.of_nat (length pre) + 32)
    with (N.of_nat (length (pre ++ Abi.be_bytes32 (N.of_nat (length b)))))
    by (rewrite length_app, be_bytes32_length; lia).
  rewrite (app_assoc pre). rewrite slice_app. cbn [fmap option_fmap option_map].
  unfold b. by rewrite string_of_list_byte_of_string.
Qed.

Lemma offsets_app (start : nat) (b1 b2 : list (list byte)) :
  Abi.offsets start (b1 ++ b2)
    = Abi.offsets start b1 ++ Abi.offsets (start + length (concat b1)) b2.
Proof.
  revert start. induction b1 as [|b b1 IH]; intros start; cbn [Abi.offsets app concat].
  - by rewrite Nat.add_0_r.
  - rewrite IH, length_app. do 3 f_equal. lia.
Qed.

Lemma offsets_length (start : nat) (bs : list (list byte)) :
  length (Abi.offsets start bs) = length bs.
Proof. revert start. induction bs as [|b bs IH]; intros start; cbn; [done | by rewrite IH]. Qed.

Lemma concat_words_length (ws : list N) :
  length (concat (map Abi.be_bytes32 ws)) = (32 * length ws)%nat.
Proof.
  induction ws as [|w ws IH]; [done|].
  cbn [map concat length]. rewrite length_app, be_bytes32_length, IH. lia.
Qed.

Lemma encode_string_length_ge (x : string) :
  (length (list_byte_of_string x) <= length (Abi.encode_string x))%nat.
Proof.
  unfold Abi.encode_string, Abi.pad32. rewrite !length_app. lia.
Qed.

Lemma decode_elements_encoded (P : list byte) (xs : list string) :
  forall todo seen,
    xs = seen ++ todo ->
    N.of_nat (length (P ++ concat (map Abi.be_bytes32
                                     (Abi.offsets (32 * length xs) (map Abi.encode_string xs)))
                        ++ concat (map Abi.encode_string xs))) <= MAX_UINT64 ->
    Abi.decode_elements
      (P ++ concat (map Abi.be_bytes32
                      (Abi.offsets (32 * length xs) (map Abi.encode_string xs)))
         ++ concat (map Abi.encode_string xs))
      (N.of_nat (length P)) (N.of_nat (length seen)) (length todo) = Some todo.
Proof.
  set (bodies := map Abi.encode_string xs).
  set (O := concat (map Abi.be_bytes32 (Abi.offsets (32 * length xs) bodies))).
  set (data := P ++ O ++ concat bodies).
  assert (HO : length O = (32 * length xs)%nat).
  { unfold O. rewrite concat_words_length, offsets_length. unfold bodies.
    by rewrite length_map. }
  induction todo as [|x rest IH]; intros seen Hxs Hlen; [done|].
  cbn [length Abi.decode_elements].
  set (bd := map Abi.encode_string seen).
  set (br := map Abi.encode_string rest).
  assert (Hb : bodies = bd ++ Abi.encode_string x :: br).
  { unfold bodies, bd, br. rewrite Hxs, map_app. done. }
  set (off := (32 * length xs + length (concat bd))%nat).
  assert (Hdata1 : data =
    (P ++ concat (map Abi.be_bytes32 (Abi.offsets (32 * length xs) bd)))
      ++ Abi.be_bytes32 (N.of_nat off)
      ++ (concat (map Abi.be_bytes32
                    (Abi.offsets (off + length (Abi.encode_string x)) br))
          ++ concat bodies)).
  { unfold data, O. rewrite Hb at 1. rewrite offsets_app. cbn [Abi.offsets].
    rewrite map_app, concat_app. cbn [map concat]. by rewrite <- !app_assoc. }
  assert (Hdata2 : data =
    (P ++ O ++ concat bd) ++ Abi.encode_string x ++ concat br).
  { unfold data. rewrite Hb. rewrite concat_app. cbn [concat].
    by rewrite <- !app_assoc. }
  assert (Hsize : (length (P ++ O ++ concat bd) + length (Abi.encode_string x)
                   <= length data)%nat).
  { rewrite Hdata2. rewrite !length_app. lia. }
  assert (Hbound : N.of_nat (length data) < 2 ^ 64).
  { eapply N.le_lt_trans; [exact Hlen|]. by vm_compute. }
  assert (Hpos1 : N.of_nat (length P) + 32 * N.of_nat (length seen)
    = N.of_nat (length (P ++ concat (map Abi.be_bytes32
                                       (Abi.offsets (32 * length xs) bd))))).
  { rewrite length_app, concat_words_length, offsets_length. unfold bd.
    rewrite length_map. lia. }
  assert (Hoff : N.of_nat off < 2 ^ 64).
  { eapply N.le_lt_trans; [|exact Hbound].
    rewrite !length_app in Hsize. unfold off. lia. }
  assert (Hw : Abi.word_at data
                 (N.of_nat (length P) + 32 * N.of_nat (length seen))
               = Some (N.of_nat off)).
  { rewrite Hpos1, Hdata1. apply word_at_app.
    eapply N.lt_trans; [exact Hoff|]. by vm_compute. }
  assert (Hs : Abi.decode_string data (N.of_nat (length P) + N.of_nat off) = Some x).
  { replace (N.of_nat (length P) + N.of_nat off)
      with (N.of_nat (length (P ++ O ++ concat bd)))
      by (rewrite !length_app, HO; unfold off; lia).
    rewrite Hdata2. apply decode_string_app.
    pose proof (encode_string_length_ge x). unfold MAX_UINT64. lia. }
  rewrite Hw. cbn [mbind option_bind].
  destruct (N.ltb_spec MAX_UINT64 (N.of_nat off)) as [Hgt|_].
  { exfalso. revert Hgt Hoff. unfold MAX_UINT64. lia. }
  rewrite Hs. cbn [mbind option_bind].
  replace (N.of_nat (length seen) + 1) with (N.of_nat (length (seen ++ [x])))
    by (rewrite length_app; cbn; lia).
  rewrite (IH (seen ++ [x])).
  - reflexivity.
  - by rewrite <- app_assoc.
  - exact Hlen.
Qed.

(** X16. Decoding inverts encoding for [string[]]: the canonical encoding of
    any list of strings, as long as it is shorter than 2^64 bytes, decodes
    to that list. *)
Theorem decode_encode_string_array (xs : list string) :
  N.of_nat (length (Abi.encode_string_array xs)) <= MAX_UINT64 ->
  Abi.decode_string_array (Abi.encode_string_array xs) = Some xs.
Proof.
  unfold Abi.encode_string_array, Abi.decode_string_array. intros Hlen.
  set (bodies := map Abi.encode_string xs) in *.
  set (O := concat (map Abi.be_bytes32 (Abi.offsets (32 * length xs) bodies))) in *.
  set (n := N.of_nat (length xs)) in *.
  assert (HO : length O = (32 * length xs)%nat).
  { unfold O. rewrite concat_words_length, offsets_length. unfold bodies.
    by rewrite length_map. }
  assert (Hn : n < 2 ^ 256).
  { rewrite !length_app, !be_bytes32_length, HO in Hlen.
    eapply N.le_lt_trans; [|eapply N.le_lt_trans; [exact Hlen | by vm_compute]].
    unfold n. lia. }
  assert (H0 : Abi.word_at (Abi.be_bytes32 32 ++ Abi.be_bytes32 n ++ O ++ concat bodies) 0
               = Some 32).
  { apply (word_at_app [] _ 32). by vm_compute. }
  assert (H1 : Abi.word_at (Abi.be_bytes32 32 ++ Abi.be_bytes32 n ++ O ++ concat bodies) 32
               = Some n).
  { change 32 with (N.of_nat (length (Abi.be_bytes32 32))) at 2.
    by apply word_at_app. }
  rewrite H0. cbn [mbind option_bind].
  change (MAX_UINT64 <? 32) with false. cbv iota.
  rewrite H1. cbn [mbind option_bind].
  destruct (N.ltb_spec MAX_UINT64 n) as [Hgt|_].
  { exfalso. rewrite !length_app, !be_bytes32_length, HO in Hlen. unfold n in Hgt. lia. }
  destruct (N.leb_spec (32 + 32 + 32 * n)
    (N.of_nat (length (Abi.be_bytes32 32 ++ Abi.be_bytes32 n ++ O ++ concat bodies))))
    as [_|Hlt].
  2:{ exfalso. rewrite !length_app, !be_bytes32_length, HO in Hlt. unfold n in Hlt. lia. }
  unfold n. rewrite Nat2N.id.
  pose proof (decode_elements_encoded (Abi.be_bytes32 32 ++ Abi.be_bytes32 (N.of_nat (length xs)))
                xs xs [] eq_refl) as Hel.
  rewrite <- !app_assoc in Hel. rewrite length_app, !be_bytes32_length in Hel.
  apply Hel. exact Hlen.
Qed.

(** X17. Decoding inverts encoding for [uint32], on the low 32 bits. *)
Theorem decode_encode_uint32 (v : N) :
  Abi.decode_uint32 (Abi.encode_uint32 v) = Some (v mod MOD_UINT32).
Proof.
  unfold Abi.decode_uint32, Abi.encode_uint32.
  assert (Hv : v mod MOD_UINT32 < MOD_UINT32) by (by apply N.mod_lt).
  assert (Hw : Abi.word_at (Abi.be_bytes32 (v mod MOD_UINT32)) 0
               = Some (v mod MOD_UINT32)).
  { pose proof (word_at_app [] [] (v mod MOD_UINT32)) as Hw.
    rewrite app_nil_r in Hw. apply Hw.
    eapply N.lt_trans; [exact Hv|]. by vm_compute. }
  rewrite Hw. cbn [mbind option_bind]. by apply N.ltb_lt in Hv as ->.
Qed.

Lemma decode_elements_length data base i n l :
  Abi.decode_elements data base i n = Some l -> length l = n.
Proof.
  revert i l. induction n as [|n IH]; intros i l; cbn [Abi.decode_elements].
  - by intros [= <-].
  - destruct (Abi.word_at data (base + 32 * i)) as [off|]; [|done]. cbn [mbind option_bind].
    destruct (MAX_UINT64 <? off); [done|].
    destruct (Abi.decode_string data (base + off)) as [x|]; [|done]. cbn [mbind option_bind].
    destruct (Abi.decode_elements data base (i + 1) n) as [rest|] eqn:E; [|done].
    cbn [mbind option_bind]. intros [= <-]. cbn. f_equal. by eapply IH.
Qed.

(** A decoded array of [n] strings takes at least [32 + 32 n] bytes. *)
Lemma decode_string_array_size data l :
  Abi.decode_string_array data = Some l ->
  (32 + 32 * length l <= length data)%nat.
Proof.
  unfold Abi.decode_string_array.
  destruct (Abi.word_at data 0) as [off|]; [|done]. cbn [mbind option_bind].
  destruct (MAX_UINT64 <? off); [done|].
  destruct (Abi.word_at data off) as [n|]; [|done]. cbn [mbind option_bind].
  destruct (N.ltb_spec MAX_UINT64 n) as [|Hn]; [done|].
  destruct (N.leb_spec (off + 32 + 32 * n) (N.of_nat (length data))) as [Hle|]; [|done].
  intros Hl%decode_elements_length. rewrite Hl. lia.
Qed.


Section Payloads.
Context {F : FHEVM}.

(** X18. A geometry callback whose cleartexts are shorter than 96 bytes is
    never applied: it reverts whatever the request id and the proof, and
    the state stays as it was. *)
Theorem short_geometry_payload_reverts
    (ctx : Ctx) (requestId : uint256) (cleartexts proof : bytes) (s : State) :
  (length cleartexts < 96)%nat ->
  exists e, transact ctx (DecryptGeometry requestId cleartexts proof) s = (Reverted e, s).
Proof.
  intros Hshort. rewrite transact_decryptGeometry. cbn.
  destruct (_ =? 0); [eauto|]. destruct (isDecrypted _); [eauto|].
  destruct (FHE_checkSignatures _ _ _); [|eauto]. cbn.
  destruct (Abi.decode_string_array cleartexts) as [[|r0 [|r1 rest]]|] eqn:E; eauto.
  apply decode_string_array_size in E. cbn in E. lia.
Qed.


(** X20. Any two strings can be delivered: for a request id standing for a
    non-zero id whose flag is clear, the callback carrying the canonical
    encoding of a list that starts with [r0] and [r1], with an accepted
    proof and an addition the library lets through, goes through and stores
    exactly [r0] and [r1]. *)
Theorem canonical_payload_is_applied
    (ctx : Ctx) (requestId : uint256) (proof : bytes) (r0 r1 : string)
    (rest : list string) (s : State) :
  N.of_nat (length (Abi.encode_string_array (r0 :: r1 :: rest))) <= MAX_UINT64 ->
  (requestToGeometryId s).[requestId] <> 0 ->
  isDecrypted (decryptedGeometries s).[(requestToGeometryId s).[requestId]] = false ->
  FHE_checkSignatures requestId (Abi.encode_string_array (r0 :: r1 :: rest)) proof = true ->
  foldAllowed ctx r1 s = true ->
  transact ctx (DecryptGeometry requestId (Abi.encode_string_array (r0 :: r1 :: rest)) proof) s
    = (Returned RNone, decrypted (requestToGeometryId s).[requestId] r0 r1 s) /\
  (decryptedGeometries (decrypted (requestToGeometryId s).[requestId] r0 r1 s)).[
      (requestToGeometryId s).[requestId]]
    = {| shape2D := r0; shape3D := r1; isDecrypted := true |}.
Proof.
  intros Hlen Hne Hfresh Hok Hacl. apply N.eqb_neq in Hne. split.
  - rewrite transact_decryptGeometry. cbn -[Abi.encode_string_array].
    rewrite Hne, Hfresh, Hok. cbn -[Abi.encode_string_array].
    by rewrite (decode_encode_string_array _ Hlen), Hacl.
  - cbn. by rewrite mget_insert_eq.
Qed.

Lemma scanCategories_none hash categories :
  Forall (fun c => categoryHash c <> hash) categories ->
  scanCategories hash categories = None.
Proof.
  induction 1 as [|c rest Hc _ IH]; [done|]. cbn. fold (categoryHash c).
  apply N.eqb_neq in Hc. by rewrite Hc.
Qed.

(** X21. In the count callback the category lookup comes first: when no
    listed category hashes to the table entry of the request id (zero for
    an unknown id, the record id for a geometry request), the callback
    reverts with "Category not found" whatever the proof and the payload. *)
Theorem count_callback_looks_up_first
    (ctx : Ctx) (requestId : uint256) (cleartexts proof : bytes) (s : State) :
  Forall (fun c => categoryHash c <> (requestToGeometryId s).[requestId])
         (intersectionCategories s) ->
  transact ctx (DecryptIntersectionCount requestId cleartexts proof) s
    = (Reverted CategoryNotFound, s).
Proof.
  intros Hnone. rewrite transact_decryptCount. by rewrite scanCategories_none.
Qed.

Lemma foldsInto_false_frame category s tx :
  foldsInto category s tx = false ->
  (encryptedIntersectionCount (step s tx)).[category]
    = (encryptedIntersectionCount s).[category].
Proof.
  intros Hf.
  destruct (step_effect s tx) as [| | |ctx rid ct pf r0 r1 rest Hne Hfr Hok Hdec Hacl|];
    try done.
  destruct (step_decrypt category ctx rid ct pf r0 r1 rest s Hne Hfr Hok Hdec Hacl)
    as [_ Hfold].
  rewrite Hfold in Hf. apply bool_decide_eq_false in Hf.
  cbn. by rewrite mget_insert_ne.
Qed.

(** X22. The counter of a category is touched only by the callbacks that
    fold into it: along a history with no geometry callback going through
    with that category as decoded 3D shape, the counter handle stays what
    it was, whatever else happens. *)
Theorem counter_changes_only_by_its_callbacks
    (category : string) (txs : list (Ctx * Call)) (s : State) :
  decryptedInto category txs s = 0 ->
  (encryptedIntersectionCount (run txs s)).[category]
    = (encryptedIntersectionCount s).[category].
Proof.
  revert s. induction txs as [|tx txs IH]; intros s; [done|].
  cbn [decryptedInto]. rewrite run_cons. intros Hz.
  destruct (foldsInto category s tx) eqn:Hf; [lia|].
  rewrite IH by lia. by apply foldsInto_false_frame.
Qed.
End Payloads.

(** ** The contract under the permissions it is deployed with *)

Section Deployed.
Context {F : FHEVM}.


(** Under such a list a request for an id without a record is refused. *)
Lemma request_needs_a_record ctx g s :
  recordsInv s ->
  isAllowed ctx (FHE_toBytes32 0) = false ->
  requestAllowed ctx g s = true ->
  0 < g <= geometryCount s.
Proof.
  intros [_ Hrec] Hzero Hacl. specialize (Hrec g).
  destruct (encryptedGeometries s !! g) as [r|] eqn:E; [tauto|].
  exfalso. revert Hacl. unfold requestAllowed, geometryHandles, mget. rewrite E. cbn.
  by rewrite Hzero.
Qed.







(** C5. A geometry decryption request reverts with "Already decrypted" when
    the id's flag is set. Otherwise the guard of the contract is passed and
    the library decides: the request goes through when the contract is
    allowed on both ciphertext handles stored under the id, and reverts
    otherwise. A request that goes through registers its request id for the
    id and leaves the flag and the handles as they were, so a repeated
    request before the callback lands is decided in the same way. For an id
    without a record the handles are zero: the contract has no check of its
    own, and the request fails wherever the library refuses the zero
    handle. *)
Theorem request_guard (ctx ctx' : Ctx) (geometryId : uint256) (s : State) :
  reachable s ->
  transact ctx (RequestGeometryDecryption geometryId) s =
    (if isDecrypted (decryptedGeometries s).[geometryId]
     then (Reverted AlreadyDecrypted, s)
     else if requestAllowed ctx geometryId s
     then (Returned RNone, requested geometryId s)
     else (Reverted SenderNotAllowed, s)) /\
  (requestToGeometryId (requested geometryId s)).[geometryRequestId geometryId s]
    = geometryId /\
  isDecrypted (decryptedGeometries (requested geometryId s)).[geometryId]
    = isDecrypted (decryptedGeometries s).[geometryId] /\
  outcome ctx' (RequestGeometryDecryption geometryId) (requested geometryId s) =
    (if isDecrypted (decryptedGeometries s).[geometryId]
     then Reverted AlreadyDecrypted
     else if requestAllowed ctx' geometryId s
     then Returned RNone
     else Reverted SenderNotAllowed) /\
  (geometryId = 0 \/ geometryCount s < geometryId ->
   isAllowed ctx (FHE_toBytes32 0) = false ->
   exists e, transact ctx (RequestGeometryDecryption geometryId) s = (Reverted e, s)).
Proof.
  intros Hr. split; [apply transact_request|].
  split; [cbn; by rewrite mget_insert_eq|]. split; [reflexivity|]. split.
  - unfold outcome. rewrite transact_request.
    change (decryptedGeometries (requested geometryId s)) with (decryptedGeometries s).
    change (requestAllowed ctx' geometryId (requested geometryId s))
      with (requestAllowed ctx' geometryId s).
    destruct (isDecrypted _); [done|]. by destruct (requestAllowed _ _ _).
  - intros Hno Hzero. rewrite transact_request.
    destruct (isDecrypted _); [eauto|].
    destruct (requestAllowed ctx geometryId s) eqn:Hacl; [|eauto].
    pose proof (request_needs_a_record ctx geometryId s (recordsInv_reachable s Hr)
                  Hzero Hacl). lia.
Qed.


(** Under such a list the callback that folds into a category finds it
    without a counter. *)
Lemma deployed_fold_creates category s tx :
  aclAsDeployed tx.1 s ->
  foldsInto category s tx = true ->
  FHE_isInitialized (encryptedIntersectionCount s).[category] = false.
Proof.
  destruct tx as [ctx c]. intros [_ Hacl]. cbn in Hacl.
  unfold foldsInto, outcome. cbn [fst snd]. destruct c; try done.
  rewrite transact_decryptGeometry. cbn.
  destruct (_ =? 0); [done|]. destruct (isDecrypted _); [done|].
  destruct (FHE_checkSignatures _ _ _); [|done]. cbn.
  destruct (Abi.decode_string_array _) as [[|r0 [|r1 rest]]|]; try done.
  destruct (foldAllowed ctx r1 s) eqn:Ha; [|done]. cbn.
  case_bool_decide as Hc; [|done]. subst r1. intros _.
  destruct (FHE_isInitialized _) eqn:Hi; [|done].
  revert Ha. unfold foldAllowed, foldOperand. rewrite Hi, (Hacl category Hi). done.
Qed.
End Deployed.

Section DeployedCounters.
Context {F : FHEVM} {L : FHEVMLaws F}.

Lemma folded_initialized category s tx :
  foldsInto category s tx = true ->
  FHE_isInitialized (encryptedIntersectionCount (step s tx)).[category] = true.
Proof.
  destruct tx as [ctx c]. unfold foldsInto, outcome, step. cbn [fst snd].
  destruct c; try done. rewrite transact_decryptGeometry. cbn.
  destruct (_ =? 0); [done|]. destruct (isDecrypted _); [done|].
  destruct (FHE_checkSignatures _ _ _); [|done]. cbn.
  destruct (Abi.decode_string_array _) as [[|r0 [|r1 rest]]|]; try done.
  destruct (foldAllowed ctx r1 s); [|done]. cbn.
  case_bool_decide as Hc; [|done]. subst r1. intros _.
  rewrite mget_insert_eq. apply isInitialized_add.
Qed.

(** X23. Under the permissions the contract is deployed with, a category is
    folded into at most once: the callback that creates the counter is the
    only one with that 3D shape that goes through, every later one being
    refused by the library; and none goes through for a category that
    already has a counter. *)
Theorem deployed_category_folded_once
    (category : string) (txs : list (Ctx * Call)) (s : State) :
  deployedRun txs s ->
  decryptedInto category txs s
    <= (if FHE_isInitialized (encryptedIntersectionCount s).[category] then 0 else 1).
Proof.
  revert s. induction txs as [|tx txs IH]; intros s Hrun.
  - cbn. destruct (FHE_isInitialized _); lia.
  - destruct Hrun as [Hacl Hrun]. specialize (IH (step s tx) Hrun).
    cbn [decryptedInto]. destruct (foldsInto category s tx) eqn:Hf.
    + rewrite (deployed_fold_creates category s tx Hacl Hf).
      rewrite (folded_initialized category s tx Hf) in IH. lia.
    + destruct (FHE_isInitialized (encryptedIntersectionCount s).[category]) eqn:Hi.
      * rewrite (initialized_kept_step s tx category Hi) in IH. lia.
      * destruct (FHE_isInitialized (encryptedIntersectionCount (step s tx)).[category]);
          lia.
Qed.
End DeployedCounters.

(** ** The further properties on concrete runs *)

Section MoreScenarios.
#[local] Existing Instance transparent.

Lemma requestedTwice_reachable : reachable requestedTwice.
Proof.
  exists [(alice, SubmitEncryptedGeometry 0x100000007 0x100000009);
          (alice, RequestGeometryDecryption 1);
          (bob, RequestGeometryDecryption 1)].
  reflexivity.
Qed.

Lemma countRequestedState_reachable : reachable countRequestedState.
Proof.
  exists [(alice, SubmitEncryptedGeometry 0x100000007 0x100000009);
          (alice, RequestGeometryDecryption 1);
          (alice, DecryptGeometry 0 cubePayload (attestation 0 cubePayload));
          (bob, RequestIntersectionCountDecryption "cube")].
  reflexivity.
Qed.

Lemma countersAreSums_step s tx : countersAreSums s -> countersAreSums (step s tx).
Proof.
  intros IH. destruct (step_effect s tx); try exact IH.
  intros category. cbn -[N.pow N.modulo N.add].
  destruct (decide (r1 = category)) as [->|Hne].
  - rewrite mget_insert_eq. right. apply N.le_add_r.
  - rewrite mget_insert_ne by done. apply IH.
Qed.

Lemma countersAreSums_reachable s : reachable s -> countersAreSums s.
Proof.
  revert s. apply reachable_ind'; [|apply countersAreSums_step].
  intros category. left. cbn. by rewrite mget_empty.
Qed.

(** The list of the scenarios is one the deployed contract finds. *)
Lemma granted_aclAsDeployed ctx s :
  isAllowed ctx = granted -> countersAreSums s -> aclAsDeployed ctx s.
Proof.
  intros Hg Hsums. unfold aclAsDeployed. rewrite Hg. split; [reflexivity|].
  intros category. cbn -[N.pow]. destruct (Hsums category) as [->|Hge]; [done|].
  intros _. unfold granted. apply andb_false_iff. right. by apply N.ltb_ge.
Qed.

Lemma granted_deployedRun txs s :
  Forall (fun tx => isAllowed tx.1 = granted) txs ->
  countersAreSums s -> deployedRun txs s.
Proof.
  intros Hall. revert s. induction Hall as [|tx txs Htx _ IH]; intros s Hsums; [done|].
  split; [by apply granted_aclAsDeployed|]. by apply IH, countersAreSums_step.
Qed.


Lemma deployed_category_folded_once_witness :
  decryptedInto "cube" (oneRound 0 ++ oneRound 1) initial
    <= (if FHE_isInitialized (encryptedIntersectionCount initial).["cube"] then 0 else 1).
Proof.
  apply (deployed_category_folded_once (L := transparent_laws) "cube"
           (oneRound 0 ++ oneRound 1) initial).
  apply granted_deployedRun; [by repeat constructor|].
  apply countersAreSums_reachable. by exists [].
Defined.

(** In that run one callback goes through and one is refused. *)
Example second_fold_is_refused :
  decryptedInto "cube" (oneRound 0 ++ oneRound 1) initial = 1 /\
  outcome bob (DecryptGeometry 1 cubePayload (attestation 1 cubePayload)) secondRequested
    = Reverted ACLNotAllowed.
Proof. vm_compute. split; reflexivity. Qed.


Lemma request_guard_witness :
  transact alice (RequestGeometryDecryption 1) oneSubmitted =
    (if isDecrypted (decryptedGeometries oneSubmitted).[1]
     then (Reverted AlreadyDecrypted, oneSubmitted)
     else if requestAllowed alice 1 oneSubmitted
     then (Returned RNone, requested 1 oneSubmitted)
     else (Reverted SenderNotAllowed, oneSubmitted)) /\
  (requestToGeometryId (requested 1 oneSubmitted)).[geometryRequestId 1 oneSubmitted] = 1 /\
  isDecrypted (decryptedGeometries (requested 1 oneSubmitted)).[1]
    = isDecrypted (decryptedGeometries oneSubmitted).[1] /\
  outcome bob (RequestGeometryDecryption 1) (requested 1 oneSubmitted) =
    (if isDecrypted (decryptedGeometries oneSubmitted).[1]
     then Reverted AlreadyDecrypted
     else if requestAllowed bob 1 oneSubmitted
     then Returned RNone
     else Reverted SenderNotAllowed) /\
  (1 = 0 \/ geometryCount oneSubmitted < 1 ->
   isAllowed alice (FHE_toBytes32 0) = false ->
   exists e, transact alice (RequestGeometryDecryption 1) oneSubmitted
             = (Reverted e, oneSubmitted)).
Proof.
  apply (request_guard alice bob 1 oneSubmitted).
  exists [(alice, SubmitEncryptedGeometry 0x100000007 0x100000009)]. reflexivity.
Defined.


Lemma fold_needs_permission_witness :
  decryptGeometry bob 1 cubePayload (attestation 1 cubePayload) secondRequested
    = (if foldAllowed bob "cube" secondRequested
       then (inr tt, decrypted (requestToGeometryId secondRequested).[1] "square" "cube"
                               secondRequested)
       else (inl ACLNotAllowed,
             foldRefused (requestToGeometryId secondRequested).[1] "square" "cube"
                         secondRequested)) /\
  transact bob (DecryptGeometry 1 cubePayload (attestation 1 cubePayload)) secondRequested
    = (if foldAllowed bob "cube" secondRequested
       then (Returned RNone,
             decrypted (requestToGeometryId secondRequested).[1] "square" "cube"
                       secondRequested)
       else (Reverted ACLNotAllowed, secondRequested)) /\
  (aclAsDeployed bob secondRequested ->
   FHE_isInitialized (encryptedIntersectionCount secondRequested).["cube"] = true ->
   foldAllowed bob "cube" secondRequested = false).
Proof.
  apply (fold_needs_permission bob 1 cubePayload (attestation 1 cubePayload)
           "square" "cube" [] secondRequested).
  - vm_compute. discriminate.
  - vm_compute. reflexivity.
  - vm_compute. reflexivity.
  - vm_compute. reflexivity.
Defined.

Lemma count_request_iff_listed_witness :
  FHE_isInitialized (encryptedIntersectionCount countRequestedState).["cube"]
    = bool_decide ("cube"%string ∈ intersectionCategories countRequestedState) /\
  transact bob (RequestIntersectionCountDecryption "cube") countRequestedState
    = (if bool_decide ("cube"%string ∈ intersectionCategories countRequestedState)
       then if countRequestAllowed bob "cube" countRequestedState
            then (Returned RNone, countRequested "cube" countRequestedState)
            else (Reverted SenderNotAllowed, countRequestedState)
       else (Reverted CategoryNotFound, countRequestedState)).
Proof.
  apply (count_request_iff_listed (L := transparent_laws) bob "cube" countRequestedState).
  apply countRequestedState_reachable.
Defined.

Lemma decrypted_record_is_logged_and_counted_witness :
  GeometryDecrypted 1 ∈ events countRequestedState /\
  shape3D (decryptedGeometries countRequestedState).[1]
    ∈ intersectionCategories countRequestedState /\
  FHE_isInitialized
    (encryptedIntersectionCount countRequestedState).[
       shape3D (decryptedGeometries countRequestedState).[1]] = true.
Proof.
  apply (decrypted_record_is_logged_and_counted (L := transparent_laws) 1 countRequestedState).
  - apply countRequestedState_reachable.
  - vm_compute. reflexivity.
Defined.

Lemma category_registry_append_only_witness :
  intersectionCategories cubeDecrypted
    `prefix_of` intersectionCategories (run sphereRound cubeDecrypted) /\
  forall c, FHE_isInitialized (encryptedIntersectionCount cubeDecrypted).[c] = true ->
            FHE_isInitialized
              (encryptedIntersectionCount (run sphereRound cubeDecrypted)).[c] = true.
Proof.
  apply (category_registry_append_only (L := transparent_laws) sphereRound cubeDecrypted).
Defined.

(** In that run the list grows from "cube" to "cube", "sphere". *)
Example registry_grows :
  intersectionCategories cubeDecrypted = ["cube"%string] /\
  intersectionCategories (run sphereRound cubeDecrypted) = ["cube"; "sphere"]%string.
Proof. vm_compute. split; reflexivity. Qed.

Lemma request_callback_getter_witness :
  transact alice (RequestGeometryDecryption 1) oneSubmitted
    = (Returned RNone, requested 1 oneSubmitted) /\
  transact bob (DecryptGeometry (geometryRequestId 1 oneSubmitted) cubePayload
                  (attestation 0 cubePayload)) (requested 1 oneSubmitted)
    = (Returned RNone, decrypted 1 "square" "cube" (requested 1 oneSubmitted)) /\
  transact alice (GetDecryptedGeometry 1)
           (decrypted 1 "square" "cube" (requested 1 oneSubmitted))
    = (Returned (RDecrypted "square" "cube" true),
       decrypted 1 "square" "cube" (requested 1 oneSubmitted)).
Proof.
  apply (request_callback_getter alice bob alice 1 cubePayload (attestation 0 cubePayload)
           "square" "cube" [] oneSubmitted).
  - discriminate.
  - vm_compute. reflexivity.
  - vm_compute. reflexivity.
  - vm_compute. reflexivity.
  - vm_compute. reflexivity.
  - vm_compute. reflexivity.
Defined.

Lemma zero_id_is_never_a_record_witness :
  encryptedGeometries requestedTwice !! 0 = None /\
  transact alice (GetDecryptedGeometry 0) requestedTwice
    = (Returned (RDecrypted "" "" false), requestedTwice) /\
  geometryHandles 0 requestedTwice = [FHE_toBytes32 0; FHE_toBytes32 0] /\
  transact alice (RequestGeometryDecryption 0) requestedTwice
    = (if isAllowed alice (FHE_toBytes32 0)
       then (Returned RNone, requested 0 requestedTwice)
       else (Reverted SenderNotAllowed, requestedTwice)) /\
  forall requestId,
    (requestToGeometryId requestedTwice).[requestId] = 0 ->
    transact bob (DecryptGeometry requestId cubePayload (attestation 2 cubePayload))
             requestedTwice
      = (Reverted InvalidRequest, requestedTwice).
Proof.
  apply (zero_id_is_never_a_record alice bob cubePayload (attestation 2 cubePayload)
           requestedTwice).
  apply requestedTwice_reachable.
Defined.

(** In that state the request for id 0 is refused. *)
Example zero_id_request_refused :
  transact alice (RequestGeometryDecryption 0) requestedTwice
    = (Reverted SenderNotAllowed, requestedTwice).
Proof. vm_compute. reflexivity. Qed.

Lemma records_are_the_ids_up_to_count_witness :
  geometryCount requestedTwice <= MAX_UINT256 /\
  match encryptedGeometries requestedTwice !! 1 with
  | Some r => 0 < 1 <= geometryCount requestedTwice /\ id r = 1
  | None => 1 = 0 \/ geometryCount requestedTwice < 1
  end.
Proof.
  apply (records_are_the_ids_up_to_count 1 requestedTwice).
  apply requestedTwice_reachable.
Defined.

Lemma encrypted_record_is_immutable_witness :
  encryptedGeometries (run (oneRound 1) requestedTwice) !! 1
    = encryptedGeometries requestedTwice !! 1.
Proof.
  apply (encrypted_record_is_immutable (oneRound 1) 1 requestedTwice).
  vm_compute. discriminate.
Defined.

Lemma decrypted_record_is_final_witness :
  (decryptedGeometries
     (run [(bob, SubmitEncryptedGeometry 0x100000003 0x100000004);
           (bob, DecryptGeometry 0 emptyPayload (attestation 0 emptyPayload))]
          countRequestedState)).[1]
    = (decryptedGeometries countRequestedState).[1].
Proof.
  apply (decrypted_record_is_final
           [(bob, SubmitEncryptedGeometry 0x100000003 0x100000004);
            (bob, DecryptGeometry 0 emptyPayload (attestation 0 emptyPayload))]
           1 countRequestedState).
  - vm_compute. discriminate.
  - vm_compute. reflexivity.
Defined.

Lemma submitted_events_match_counter_witness :
  submittedIds (events (run (oneRound 1) requestedTwice))
    = idsDownFrom (N.to_nat (geometryCount (run (oneRound 1) requestedTwice))).
Proof.
  apply (submitted_events_match_counter (run (oneRound 1) requestedTwice)).
  destruct requestedTwice_reachable as [txs ->]. exists (txs ++ oneRound 1).
  by rewrite run_app.
Defined.

Lemma callback_needs_a_sent_request_witness :
  transact bob (DecryptGeometry 7 cubePayload (attestation 7 cubePayload)) requestedTwice
    = (Reverted InvalidRequest, requestedTwice).
Proof.
  apply (callback_needs_a_sent_request bob 7 cubePayload (attestation 7 cubePayload)
           requestedTwice).
  - apply requestedTwice_reachable.
  - vm_compute. intros H. repeat (apply elem_of_cons in H as [H|H]; [discriminate|]).
    by apply elem_of_nil in H.
Defined.

Lemma single_string_payload_is_rolled_back_witness :
  decryptGeometry alice 0 squarePayload (attestation 0 squarePayload) requestedTwice
    = (inl (Panic 0x32),
       halfWritten (requestToGeometryId requestedTwice).[0] "square" requestedTwice) /\
  shape2D (decryptedGeometries
             (halfWritten (requestToGeometryId requestedTwice).[0] "square"
                          requestedTwice)).[(requestToGeometryId requestedTwice).[0]]
    = "square"%string /\
  transact alice (DecryptGeometry 0 squarePayload (attestation 0 squarePayload))
           requestedTwice
    = (Reverted (Panic 0x32), requestedTwice).
Proof.
  apply (single_string_payload_is_rolled_back alice 0 squarePayload
           (attestation 0 squarePayload) "square" requestedTwice).
  - vm_compute. discriminate.
  - vm_compute. reflexivity.
  - vm_compute. reflexivity.
  - vm_compute. reflexivity.
Defined.

Lemma short_geometry_payload_reverts_witness :
  exists e, transact alice (DecryptGeometry 0 (Abi.encode_uint32 1)
                              (attestation 0 (Abi.encode_uint32 1))) requestedTwice
            = (Reverted e, requestedTwice).
Proof.
  apply (short_geometry_payload_reverts alice 0 (Abi.encode_uint32 1)
           (attestation 0 (Abi.encode_uint32 1)) requestedTwice).
  vm_compute. lia.
Defined.


Lemma request_sends_the_submitted_ciphertexts_witness :
  geometryHandles (geometryCount requestedTwice + 1)
      (run (oneRound 2) (submitted alice 0x100000003 0x100000004 requestedTwice))
    = [FHE_toBytes32 0x100000003; FHE_toBytes32 0x100000004] /\
  transact bob (RequestGeometryDecryption (geometryCount requestedTwice + 1))
           (run (oneRound 2) (submitted alice 0x100000003 0x100000004 requestedTwice))
    = (Returned RNone,
       requested (geometryCount requestedTwice + 1)
         (run (oneRound 2) (submitted alice 0x100000003 0x100000004 requestedTwice))) /\
  or_handles <$> head (oracleRequests
      (requested (geometryCount requestedTwice + 1)
         (run (oneRound 2) (submitted alice 0x100000003 0x100000004 requestedTwice))))
    = Some [FHE_toBytes32 0x100000003; FHE_toBytes32 0x100000004] /\
  or_selector <$> head (oracleRequests
      (requested (geometryCount requestedTwice + 1)
         (run (oneRound 2) (submitted alice 0x100000003 0x100000004 requestedTwice))))
    = Some decryptGeometry_selector /\
  (requestToGeometryId
     (requested (geometryCount requestedTwice + 1)
        (run (oneRound 2) (submitted alice 0x100000003 0x100000004 requestedTwice)))).[
     geometryRequestId (geometryCount requestedTwice + 1)
        (run (oneRound 2) (submitted alice 0x100000003 0x100000004 requestedTwice))]
    = geometryCount requestedTwice + 1.
Proof.
  apply (request_sends_the_submitted_ciphertexts alice bob 0x100000003 0x100000004
           (oneRound 2) requestedTwice).
  - vm_compute. reflexivity.
  - vm_compute. reflexivity.
  - vm_compute. reflexivity.
  - vm_compute. reflexivity.
Defined.

Lemma decode_encode_string_array_witness :
  Abi.decode_string_array
    (Abi.encode_string_array [""; "a shape name that is longer than one word"; "cube"]%string)
    = Some [""; "a shape name that is longer than one word"; "cube"]%string.
Proof.
  apply (decode_encode_string_array
           [""; "a shape name that is longer than one word"; "cube"]%string).
  vm_compute. discriminate.
Defined.

Lemma canonical_payload_is_applied_witness :
  transact bob (DecryptGeometry 1 (Abi.encode_string_array ["circle"; "sphere"; "extra"]%string)
                  (attestation 1 (Abi.encode_string_array ["circle"; "sphere"; "extra"]%string)))
           requestedTwice
    = (Returned RNone,
       decrypted (requestToGeometryId requestedTwice).[1] "circle" "sphere" requestedTwice) /\
  (decryptedGeometries
     (decrypted (requestToGeometryId requestedTwice).[1] "circle" "sphere" requestedTwice)).[
      (requestToGeometryId requestedTwice).[1]]
    = {| shape2D := "circle"; shape3D := "sphere"; isDecrypted := true |}.
Proof.
  apply (canonical_payload_is_applied bob 1
           (attestation 1 (Abi.encode_string_array ["circle"; "sphere"; "extra"]%string))
           "circle" "sphere" ["extra"%string] requestedTwice).
  - vm_compute. discriminate.
  - vm_compute. discriminate.
  - vm_compute. reflexivity.
  - vm_compute. reflexivity.
  - vm_compute. reflexivity.
Defined.

Lemma record_is_folded_at_most_once_witness :
  callbacksFor 1
    [(alice, DecryptGeometry 0 cubePayload (attestation 0 cubePayload));
     (bob, DecryptGeometry 1 cubePayload (attestation 1 cubePayload))] requestedTwice
    <= (if isDecrypted (decryptedGeometries requestedTwice).[1] then 0 else 1).
Proof.
  apply (record_is_folded_at_most_once 1
           [(alice, DecryptGeometry 0 cubePayload (attestation 0 cubePayload));
            (bob, DecryptGeometry 1 cubePayload (attestation 1 cubePayload))]
           requestedTwice).
  vm_compute. discriminate.
Defined.

Lemma counter_changes_only_by_its_callbacks_witness :
  (encryptedIntersectionCount (run sphereRound cubeDecrypted)).["cube"]
    = (encryptedIntersectionCount cubeDecrypted).["cube"].
Proof.
  apply (counter_changes_only_by_its_callbacks "cube" sphereRound cubeDecrypted).
  vm_compute. reflexivity.
Defined.

(** In that run the callback goes through, into "sphere". *)
Example sphere_callback_goes_through :
  decryptedInto "sphere" sphereRound cubeDecrypted = 1 /\
  isDecrypted (decryptedGeometries (run sphereRound cubeDecrypted)).[2] = true.
Proof. vm_compute. split; reflexivity. Qed.

Lemma count_callback_looks_up_first_witness :
  transact bob (DecryptIntersectionCount 0 (Abi.encode_uint32 1)
                  (attestation 0 (Abi.encode_uint32 1))) countRequestedState
    = (Reverted CategoryNotFound, countRequestedState).
Proof.
  apply (count_callback_looks_up_first bob 0 (Abi.encode_uint32 1)
           (attestation 0 (Abi.encode_uint32 1)) countRequestedState).
  replace (intersectionCategories countRequestedState) with ["cube"%string]
    by (vm_compute; reflexivity).
  constructor; [vm_compute; discriminate | constructor].
Defined.
End MoreScenarios.
